(** * The Memento example: Originator, ConcreteMemento, Caretaker

    A shallow embedding of [src/Memento/Conceptual/index.ts].

    The script builds one [Originator], one [Caretaker] bound to it and any
    number of [ConcreteMemento] objects.  The [Caretaker] keeps a reference
    to the very [Originator] the client mutates, so the two are one
    component of the store; mementos are objects with identity, kept in a
    heap and referred to by location.  Every method is a computation in a
    small state-and-exception monad over that store. *)

From Stdlib Require Import String Ascii List.
From stdpp Require Import gmap list strings.

Local Open Scope string_scope.

(** ** Strings

    A JavaScript string is a sequence of code units; a [string] here is the
    same sequence with one character per code unit. *)

(** [s.substr(start, length)], for a start inside the natural numbers. *)
Definition substr (start len : nat) (s : string) : string :=
  String.substring start len s.

(** [s.slice(0, stop)]. *)
Definition slice0 (stop : nat) (s : string) : string :=
  String.substring 0 stop s.

(** [s.replace(c, d)] for one-character strings: only the first occurrence
    is replaced. *)
Fixpoint replace (c d : ascii) (s : string) : string :=
  match s with
  | EmptyString => EmptyString
  | String a s' => if Ascii.eqb a c then String d s' else String a (replace c d s')
  end.

(** [s.charAt(i)]: the empty string outside of the string. *)
Definition charAt (s : string) (i : nat) : string :=
  match String.get i s with
  | Some a => String a EmptyString
  | None => EmptyString
  end.

(** [xs.join('')]. *)
Definition join (xs : list string) : string :=
  fold_right String.append EmptyString xs.

Definition newline : string := String (ascii_of_nat 10) EmptyString.

(** ** Values and objects *)

Abbreviation loc := positive.

(** What a variable of the script may hold. *)
Inductive value : Type :=
| VUndefined
| VNull
| VObj (l : loc)
| VStr (s : string).

#[global] Instance value_eq_dec : EqDecision value.
Proof. solve_decision. Defined.

(** [class Originator]: [private state: string]. *)
Record Originator : Type := { Originator_state : string }.

(** [class ConcreteMemento]: [private state: string; private date: string]. *)
Record ConcreteMemento : Type := {
  ConcreteMemento_state : string;
  ConcreteMemento_date : string;
}.

(** [class Caretaker]: [private mementos: Memento[]].  Its second field,
    [private originator: Originator], refers to the store's [originator]. *)
Record Caretaker : Type := { Caretaker_mementos : list value }.

(** The store: the object graph of the script and what it has printed. *)
Record World : Type := {
  originator : Originator;
  caretaker : Caretaker;
  heap : gmap loc ConcreteMemento;
  console : list string;
}.

Definition state (w : World) : string := Originator_state (originator w).
Definition mementos (w : World) : list value := Caretaker_mementos (caretaker w).

Definition set_state (s : string) (w : World) : World :=
  {| originator := {| Originator_state := s |};
     caretaker := caretaker w; heap := heap w; console := console w |}.

Definition set_mementos (ms : list value) (w : World) : World :=
  {| originator := originator w;
     caretaker := {| Caretaker_mementos := ms |};
     heap := heap w; console := console w |}.

Definition set_heap (h : gmap loc ConcreteMemento) (w : World) : World :=
  {| originator := originator w; caretaker := caretaker w;
     heap := h; console := console w |}.

Definition set_console (c : list string) (w : World) : World :=
  {| originator := originator w; caretaker := caretaker w;
     heap := heap w; console := c |}.

(** ** The monad of method bodies *)

(** Abrupt completions.  [TypeError] is what the engine throws when a
    method is called on [null], [undefined] or a value without that method.
    [NoSuchObject] is no JavaScript behaviour: it marks a reference that no
    object of the heap answers, which [no_dangling] worlds never contain. *)
Inductive exn : Type :=
| TypeError
| NoSuchObject (l : loc).

Inductive completion (A : Type) : Type :=
| Return (a : A) (w : World)
| Throw (e : exn) (w : World).
Arguments Return {A} a w.
Arguments Throw {A} e w.

Definition M (A : Type) : Type := World -> completion A.

Definition ret {A} (a : A) : M A := fun w => Return a w.

Definition bind {A B} (m : M A) (k : A -> M B) : M B :=
  fun w => match m w with
           | Return a w' => k a w'
           | Throw e w' => Throw e w'
           end.

Definition throw {A} (e : exn) : M A := fun w => Throw e w.

Definition gets {A} (f : World -> A) : M A := fun w => Return (f w) w.

Definition modify (f : World -> World) : M unit := fun w => Return tt (f w).

Declare Scope js_scope.
Delimit Scope js_scope with js.
Notation "x <- m ;; k" := (bind m (fun x => k))
  (at level 100, m at next level, right associativity) : js_scope.
Notation "m ;; k" := (bind m (fun _ => k))
  (at level 100, right associativity) : js_scope.
Local Open Scope js_scope.

(** The store an execution ends in, whichever way it completes. *)
Definition world_of {A} (c : completion A) : World :=
  match c with
  | Return _ w => w
  | Throw _ w => w
  end.

(** [console.log(line)]. *)
Definition console_log (line : string) : M unit :=
  modify (fun w => set_console (console w ++ [line]) w).

(** [for (const x of xs) body]. *)
Fixpoint for_of {A} (xs : list A) (body : A -> M unit) : M unit :=
  match xs with
  | [] => ret tt
  | x :: xs' => body x ;; for_of xs' body
  end.

(** ** ConcreteMemento *)

(** The object a [Memento]-typed expression denotes; calling a method on
    anything that is not such an object throws. *)
Definition deref (memento : value) : M ConcreteMemento :=
  match memento with
  | VObj l => fun w =>
      match heap w !! l with
      | Some cm => Return cm w
      | None => Throw (NoSuchObject l) w
      end
  | VUndefined | VNull | VStr _ => throw TypeError
  end.

(** [new ConcreteMemento(state)].  [iso] is what [new Date().toISOString()]
    answers at that moment. *)
Definition ConcreteMemento_new (state : string) (iso : string) : M value :=
  fun w =>
    let l := fresh (dom (heap w)) in
    let this := {| ConcreteMemento_state := state;
                   ConcreteMemento_date := replace "T" " " (slice0 19 iso) |} in
    Return (VObj l) (set_heap (<[l := this]> (heap w)) w).

Definition ConcreteMemento_getState (memento : value) : M string :=
  this <- deref memento ;;
  ret (ConcreteMemento_state this).

Definition ConcreteMemento_getName (memento : value) : M string :=
  this <- deref memento ;;
  ret (ConcreteMemento_date this +:+ " / (" +:+
       substr 0 9 (ConcreteMemento_state this) +:+ "...)").

Definition ConcreteMemento_getDate (memento : value) : M string :=
  this <- deref memento ;;
  ret (ConcreteMemento_date this).

(** ** Originator *)

Definition charSet : string :=
  "abcdefghijklmnopqrstuvwxyzABCDEFGHIJKLMNOPQRSTUVWXYZ".

(** [generateRandomString(length)].  The [i]-th callback of [map] draws
    [Math.floor(Math.random() * charSet.length)], an index below 52;
    [draws i] is that index. *)
Definition Originator_generateRandomString (len : nat) (draws : nat -> nat) : string :=
  join (map (fun i => charAt charSet (draws i)) (seq 0 len)).

(** [new Originator(state)]. *)
Definition Originator_new (s : string) : M unit :=
  modify (set_state s) ;;
  console_log ("Originator: My initial state is: " +:+ s).

Definition Originator_doSomething (draws : nat -> nat) : M unit :=
  console_log "Originator: I'm doing something important." ;;
  modify (set_state (Originator_generateRandomString 30 draws)) ;;
  s <- gets state ;;
  console_log ("Originator: and my state has changed to: " +:+ s).

Definition Originator_save (iso : string) : M value :=
  s <- gets state ;;
  ConcreteMemento_new s iso.

Definition Originator_restore (memento : value) : M unit :=
  s <- ConcreteMemento_getState memento ;;
  modify (set_state s) ;;
  s' <- gets state ;;
  console_log ("Originator: My state has changed to: " +:+ s').

(** ** Caretaker *)

(** [this.mementos.push(v)]. *)
Definition mementos_push (v : value) : M unit :=
  modify (fun w => set_mementos (mementos w ++ [v]) w).

(** [this.mementos.pop()]: [undefined] on an empty array. *)
Definition mementos_pop : M value :=
  fun w => match last (mementos w) with
           | Some v => Return v (set_mementos (removelast (mementos w)) w)
           | None => Return VUndefined w
           end.

(** [new Caretaker(originator)]. *)
Definition Caretaker_new : M unit :=
  modify (set_mementos []).

Definition Caretaker_backup (iso : string) : M unit :=
  console_log (newline +:+ "Caretaker: Saving Originator's state...") ;;
  m <- Originator_save iso ;;
  mementos_push m.

Definition Caretaker_undo : M unit :=
  n <- gets (fun w => length (mementos w)) ;;
  if Nat.eqb n 0 then ret tt
  else
    memento <- mementos_pop ;;
    name <- ConcreteMemento_getName memento ;;
    console_log ("Caretaker: Restoring state to: " +:+ name) ;;
    Originator_restore memento.

Definition Caretaker_showHistory : M unit :=
  console_log "Caretaker: Here's the list of mementos:" ;;
  ms <- gets mementos ;;
  for_of ms (fun memento =>
    name <- ConcreteMemento_getName memento ;;
    console_log name).

(** ** The client

    The calls a client can make, each with what the environment answers
    during it, and the value the call expression has. *)
Inductive op : Type :=
| doSomething (draws : nat -> nat)
| save (iso : string)
| restore (memento : value)
| backup (iso : string)
| undo
| showHistory.

(** A [void] method answers [undefined]. *)
Definition void (m : M unit) : M value := m ;; ret VUndefined.

Definition call (o : op) : M value :=
  match o with
  | doSomething draws => void (Originator_doSomething draws)
  | save iso => Originator_save iso
  | restore memento => void (Originator_restore memento)
  | backup iso => void (Caretaker_backup iso)
  | undo => void Caretaker_undo
  | showHistory => void Caretaker_showHistory
  end.

(** A client that makes the calls of [ops] in order and goes on after a
    call that throws. *)
Definition run (ops : list op) (w : World) : World :=
  fold_left (fun w o => world_of (call o w)) ops w.

(** The method calls of the script that ends the source file; the lines
    the script prints itself are left out. *)
Definition client (iso1 iso2 iso3 : string) (d1 d2 d3 : nat -> nat) : list op :=
  [ backup iso1; doSomething d1;
    backup iso2; doSomething d2;
    backup iso3; doSomething d3;
    showHistory; undo; undo ].

Definition empty_world : World :=
  {| originator := {| Originator_state := "" |};
     caretaker := {| Caretaker_mementos := [] |};
     heap := ∅; console := [] |}.

(** The store after [new Originator(s)] and [new Caretaker(originator)]. *)
Definition boot (s : string) : World :=
  world_of ((Originator_new s ;; Caretaker_new) empty_world).

(** Worlds whose history holds only references to live mementos. *)
Definition live (w : World) (v : value) : bool :=
  match v with
  | VObj l => match heap w !! l with Some _ => true | None => false end
  | _ => false
  end.

Definition no_dangling (w : World) : bool := forallb (live w) (mementos w).

(** ** Ghost history

    Which memento object each Capture created and which entry each Revert
    took, in the order of the calls. *)

(** The objects that exist after the call and did not before. *)
Definition created (o : op) (w : World) : list loc :=
  match o with
  | backup _ => elements (dom (heap (world_of (call o w))) ∖ dom (heap w))
  | _ => []
  end.

(** The entry a Revert takes out of the history. *)
Definition taken (o : op) (w : World) : list loc :=
  match o with
  | undo => match last (mementos w) with
            | Some (VObj l) => [l]
            | _ => []
            end
  | _ => []
  end.

Record Ghost : Type := {
  world : World;
  captured : list loc;
  consumed : list loc;
}.

Definition gstep (g : Ghost) (o : op) : Ghost :=
  {| world := world_of (call o (world g));
     captured := captured g ++ created o (world g);
     consumed := consumed g ++ taken o (world g) |}.

Definition grun (ops : list op) (w : World) : Ghost :=
  fold_left gstep ops {| world := w; captured := []; consumed := [] |}.

(** The captured snapshots no Revert has taken yet, oldest first. *)
Definition pending (g : Ghost) : list loc :=
  filter (fun l => l ∉ consumed g) (captured g).

(** ** Traces of the round-trip law *)

(** [n = S (length rest)] Captures, with any Mutate calls between two
    consecutive ones. *)
Definition capture_phase (iso : string)
    (rest : list (list (nat -> nat) * string)) : list op :=
  backup iso ::
  flat_map (fun '(ds, iso') => (map doSomething ds ++ [backup iso'])%list) rest.

Definition round_trip (iso : string)
    (rest : list (list (nat -> nat) * string)) : list op :=
  (capture_phase iso rest ++ replicate (S (length rest)) undo)%list.

(** Calling an accessor twice in a row. *)
Definition twice {A} (m : M A) : M (A * A) :=
  a <- m ;; b <- m ;; ret (a, b).

Definition is_backup (o : op) : bool :=
  match o with backup _ => true | _ => false end.

Definition is_undo (o : op) : bool :=
  match o with undo => true | _ => false end.

(** A call that at most printed. *)
Definition only_prints (w w' : World) : Prop :=
  state w' = state w /\ mementos w' = mementos w /\ heap w' = heap w.

(** The history is the pending snapshots, each captured once and alive. *)
Definition history_ok (g : Ghost) : Prop :=
  mementos (world g) = VObj <$> pending g /\
  NoDup (captured g) /\
  (forall l, l ∈ captured g -> is_Some (heap (world g) !! l)) /\
  (forall l, l ∈ consumed g -> l ∈ captured g).

(** ** Nesting of Captures and Reverts *)

(** How many Captures of [ops] are still open at its end, when [d] were
    open at its start; [None] when a Revert comes with none open. *)
Fixpoint depth_after (d : nat) (ops : list op) : option nat :=
  match ops with
  | [] => Some d
  | backup _ :: ops' => depth_after (S d) ops'
  | undo :: ops' =>
      match d with
      | O => None
      | S d' => depth_after d' ops'
      end
  | _ :: ops' => depth_after d ops'
  end.

(** The calls that are neither a Capture nor a Revert. *)
Definition keeps_history (o : op) : bool :=
  negb (is_backup o || is_undo o).

Definition is_restore (o : op) : bool :=
  match o with restore _ => true | _ => false end.

(** * Properties *)

Section Strings.

Lemma substring_0_take (n : nat) (s : string) :
  list_ascii_of_string (String.substring 0 n s) = take n (list_ascii_of_string s).
Proof.
  revert n. induction s as [|a s IH]; intros [|n]; simpl; try reflexivity.
  now rewrite IH.
Qed.

Lemma substring_0_short (n : nat) (s : string) :
  String.length s <= n -> String.substring 0 n s = s.
Proof.
  revert n. induction s as [|a s IH]; intros [|n] H; simpl in *;
    try reflexivity; try lia.
  f_equal. apply IH. lia.
Qed.

End Strings.

(** Unfolding of the monad and of the method bodies. *)
Ltac exec :=
  cbv [call void Caretaker_undo Caretaker_backup Caretaker_showHistory
       Caretaker_new mementos_pop mementos_push
       Originator_restore Originator_save Originator_doSomething Originator_new
       ConcreteMemento_getState ConcreteMemento_getName ConcreteMemento_getDate
       ConcreteMemento_new deref console_log bind ret throw gets modify].

Section Accessors.

Variables (w : World) (l : loc) (cm : ConcreteMemento).
Hypothesis Hl : heap w !! l = Some cm.

Lemma deref_live : deref (VObj l) w = Return cm w.
Proof using Hl. unfold deref. now rewrite Hl. Qed.

Lemma getState_live :
  ConcreteMemento_getState (VObj l) w = Return (ConcreteMemento_state cm) w.
Proof using Hl. unfold ConcreteMemento_getState, bind. now rewrite deref_live. Qed.

Lemma getDate_live :
  ConcreteMemento_getDate (VObj l) w = Return (ConcreteMemento_date cm) w.
Proof using Hl. unfold ConcreteMemento_getDate, bind. now rewrite deref_live. Qed.

Lemma getName_live :
  ConcreteMemento_getName (VObj l) w =
  Return (ConcreteMemento_date cm +:+ " / (" +:+
          substr 0 9 (ConcreteMemento_state cm) +:+ "...)") w.
Proof using Hl. unfold ConcreteMemento_getName, bind. now rewrite deref_live. Qed.

End Accessors.

(** C10. For every ConcreteMemento of the heap, getName() answers the
    stored date, then [" / ("], then the first 9 characters of the stored
    state (all of it when it has fewer than 9), then ["...)"]; getName(),
    getState() and getDate() leave the store as it is, so calling them again
    answers the same. *)
Theorem ConcreteMemento_getName_format
    (w : World) (l : loc) (cm : ConcreteMemento) :
  heap w !! l = Some cm ->
  let date := ConcreteMemento_date cm in
  let st := ConcreteMemento_state cm in
  let name := date +:+ " / (" +:+ substr 0 9 st +:+ "...)" in
  ConcreteMemento_getDate (VObj l) w = Return date w /\
  ConcreteMemento_getState (VObj l) w = Return st w /\
  ConcreteMemento_getName (VObj l) w = Return name w /\
  list_ascii_of_string (substr 0 9 st) = take 9 (list_ascii_of_string st) /\
  (String.length st < 9 -> name = date +:+ " / (" +:+ st +:+ "...)") /\
  twice (ConcreteMemento_getName (VObj l)) w = Return (name, name) w /\
  twice (ConcreteMemento_getState (VObj l)) w = Return (st, st) w /\
  twice (ConcreteMemento_getDate (VObj l)) w = Return (date, date) w.
Proof.
  intros Hl date st name.
  pose proof (getName_live w l cm Hl) as Hn.
  pose proof (getState_live w l cm Hl) as Hs.
  pose proof (getDate_live w l cm Hl) as Hd.
  repeat split; try assumption.
  - apply substring_0_take.
  - intros Hlen. subst name. unfold substr.
    rewrite substring_0_short by lia. reflexivity.
  - unfold twice, bind. fold name in Hn. now rewrite !Hn.
  - unfold twice, bind. fold st in Hs. now rewrite !Hs.
  - unfold twice, bind. fold date in Hd. now rewrite !Hd.
Qed.

Lemma ConcreteMemento_getName_format_witness :
  let w := world_of (call (backup "2026-11-01T10:00:02.125Z") (boot "Super-duper")) in
  let cm := {| ConcreteMemento_state := "Super-duper";
               ConcreteMemento_date := "2026-11-01 10:00:02" |} in
  heap w !! 1%positive = Some cm /\
  ConcreteMemento_getName (VObj 1) w = Return "2026-11-01 10:00:02 / (Super-dup...)" w.
Proof.
  intros w cm.
  assert (H : heap w !! 1%positive = Some cm) by (vm_compute; reflexivity).
  split; [exact H|].
  exact (proj1 (proj2 (proj2 (ConcreteMemento_getName_format w 1 cm H)))).
Defined.

(** The label of the constructor's object, from the clock's answer. *)
Lemma ConcreteMemento_new_name (w : World) (st iso : string) :
  exists l w',
    ConcreteMemento_new st iso w = Return (VObj l) w' /\
    ConcreteMemento_getName (VObj l) w' =
      Return (replace "T" " " (slice0 19 iso) +:+ " / (" +:+
              substr 0 9 st +:+ "...)") w'.
Proof.
  eexists _, _. split; [reflexivity|].
  etransitivity; [apply getName_live; cbn; apply lookup_insert_eq|].
  reflexivity.
Qed.

Example date_of_iso :
  replace "T" " " (slice0 19 "2026-11-01T10:00:02.125Z") = "2026-11-01 10:00:02".
Proof. reflexivity. Qed.

Example getName_short :
  exists l w',
    ConcreteMemento_new "abc" "2026-11-01T10:00:02.125Z" empty_world = Return (VObj l) w' /\
    ConcreteMemento_getName (VObj l) w' = Return "2026-11-01 10:00:02 / (abc...)" w'.
Proof. eexists _, _. split; reflexivity. Qed.

Lemma restore_cases (w : World) (memento : value) :
  (exists s w',
      ConcreteMemento_getState memento w = Return s w /\
      Originator_restore memento w = Return tt w' /\
      state w' = s /\ mementos w' = mementos w /\ heap w' = heap w) \/
  (exists e, Originator_restore memento w = Throw e w).
Proof.
  destruct memento as [| |l|s]; try (right; exists TypeError; reflexivity).
  destruct (heap w !! l) as [cm|] eqn:Hl.
  - left. exists (ConcreteMemento_state cm). eexists.
    rewrite (getState_live w l cm Hl). split; [reflexivity|].
    unfold Originator_restore, bind. rewrite (getState_live w l cm Hl).
    cbn. repeat split; reflexivity.
  - right. exists (NoSuchObject l). exec. now rewrite Hl.
Qed.

(** C3. restore(null) and restore(undefined) throw before the assignment:
    the store they leave is the store they found.  For any argument,
    restore() either completes with the state overwritten by the memento's
    getState(), or throws and leaves the store untouched. *)
Theorem Originator_restore_absent (w : World) :
  Originator_restore VNull w = Throw TypeError w /\
  Originator_restore VUndefined w = Throw TypeError w /\
  state (world_of (Originator_restore VNull w)) = state w /\
  state (world_of (Originator_restore VUndefined w)) = state w /\
  forall memento : value,
    (exists s w',
        ConcreteMemento_getState memento w = Return s w /\
        Originator_restore memento w = Return tt w' /\
        state w' = s /\ mementos w' = mementos w /\ heap w' = heap w) \/
    (exists e, Originator_restore memento w = Throw e w).
Proof.
  repeat (split; [reflexivity|]). intros memento. apply restore_cases.
Qed.

(** C4. undo() on an empty history returns at once: no exception, and the
    whole store (state, history, heap, console) is as before. *)
Theorem Caretaker_undo_empty (w : World) :
  mementos w = [] ->
  call undo w = Return VUndefined w /\
  state (world_of (call undo w)) = state w /\
  mementos (world_of (call undo w)) = [].
Proof.
  intros H.
  assert (call undo w = Return VUndefined w) as E.
  { exec. rewrite H. reflexivity. }
  rewrite E. cbn. auto.
Qed.

Lemma Caretaker_undo_empty_witness :
  mementos (boot "A") = [] /\
  call undo (boot "A") = Return VUndefined (boot "A") /\
  state (world_of (call undo (boot "A"))) = state (boot "A") /\
  mementos (world_of (call undo (boot "A"))) = [].
Proof.
  split; [reflexivity|]. apply Caretaker_undo_empty. reflexivity.
Defined.

(** ** What one call does to the store *)

Lemma fresh_heap_None (w : World) : heap w !! fresh (dom (heap w)) = None.
Proof. apply not_elem_of_dom, is_fresh. Qed.

Lemma doSomething_spec (w : World) (draws : nat -> nat) :
  exists w',
    call (doSomething draws) w = Return VUndefined w' /\
    state w' = Originator_generateRandomString 30 draws /\
    mementos w' = mementos w /\ heap w' = heap w.
Proof. eexists. split; [reflexivity|]. cbn. auto. Qed.

Lemma save_spec (w : World) (iso : string) :
  let l := fresh (dom (heap w)) in
  let this := {| ConcreteMemento_state := state w;
                 ConcreteMemento_date := replace "T" " " (slice0 19 iso) |} in
  exists w',
    Originator_save iso w = Return (VObj l) w' /\
    state w' = state w /\ mementos w' = mementos w /\
    heap w' = <[l := this]> (heap w) /\ console w' = console w.
Proof. eexists. split; [reflexivity|]. cbn. auto. Qed.

Lemma backup_spec (w : World) (iso : string) :
  let l := fresh (dom (heap w)) in
  let this := {| ConcreteMemento_state := state w;
                 ConcreteMemento_date := replace "T" " " (slice0 19 iso) |} in
  exists w',
    call (backup iso) w = Return VUndefined w' /\
    state w' = state w /\
    mementos w' = (mementos w ++ [VObj l])%list /\
    heap w' = <[l := this]> (heap w) /\
    console w' =
      (console w ++ [newline +:+ "Caretaker: Saving Originator's state..."])%list.
Proof. eexists. split; [reflexivity|]. cbn. auto. Qed.

Lemma restore_spec (w : World) (l : loc) (cm : ConcreteMemento) :
  heap w !! l = Some cm ->
  exists w',
    Originator_restore (VObj l) w = Return tt w' /\
    state w' = ConcreteMemento_state cm /\
    mementos w' = mementos w /\ heap w' = heap w /\
    console w' =
      (console w ++ ["Originator: My state has changed to: " +:+
                     ConcreteMemento_state cm])%list.
Proof.
  intros Hl. eexists. split.
  - unfold Originator_restore, bind at 1. rewrite (getState_live w l cm Hl).
    reflexivity.
  - cbn. auto.
Qed.

Lemma undo_spec (w : World) (ms : list value) (l : loc) (cm : ConcreteMemento) :
  mementos w = (ms ++ [VObj l])%list ->
  heap w !! l = Some cm ->
  let name := ConcreteMemento_date cm +:+ " / (" +:+
              substr 0 9 (ConcreteMemento_state cm) +:+ "...)" in
  exists w',
    call undo w = Return VUndefined w' /\
    state w' = ConcreteMemento_state cm /\
    mementos w' = ms /\ heap w' = heap w /\
    console w' =
      (console w ++ ["Caretaker: Restoring state to: " +:+ name;
                     "Originator: My state has changed to: " +:+
                     ConcreteMemento_state cm])%list.
Proof.
  intros Hms Hl name. eexists. split.
  - exec. rewrite Hms, length_app, Nat.add_1_r. cbn [Nat.eqb]. cbv beta.
    rewrite Hms, last_snoc, removelast_last.
    cbn. rewrite Hl. cbn. rewrite Hl. reflexivity.
  - cbn. rewrite <- app_assoc. auto.
Qed.

(** ** Frames: what a call cannot touch *)

Lemma only_prints_refl (w : World) : only_prints w w.
Proof. repeat split. Qed.

Lemma only_prints_trans (w1 w2 w3 : World) :
  only_prints w1 w2 -> only_prints w2 w3 -> only_prints w1 w3.
Proof. unfold only_prints. intuition congruence. Qed.

Lemma getName_frame (v : value) (w : World) :
  (exists name, ConcreteMemento_getName v w = Return name w) \/
  (exists e, ConcreteMemento_getName v w = Throw e w).
Proof.
  destruct v as [| |l|s]; try (right; exists TypeError; reflexivity).
  destruct (heap w !! l) as [cm|] eqn:Hl.
  - left. eexists. apply (getName_live w l cm Hl).
  - right. exists (NoSuchObject l). exec. now rewrite Hl.
Qed.

Lemma for_of_getName_frame (ms : list value) (w : World) :
  only_prints w
    (world_of (for_of ms (fun memento =>
                 name <- ConcreteMemento_getName memento ;; console_log name) w)).
Proof.
  revert w. induction ms as [|v ms IH]; intros w; [apply only_prints_refl|].
  cbn [for_of]. unfold bind at 1. unfold bind at 1.
  destruct (getName_frame v w) as [[name E]|[e E]]; rewrite E.
  - eapply only_prints_trans; [|apply IH]. repeat split.
  - apply only_prints_refl.
Qed.

Lemma showHistory_frame (w : World) :
  only_prints w (world_of (call showHistory w)).
Proof.
  pose proof (for_of_getName_frame (mementos w)
    (set_console (console w ++ ["Caretaker: Here's the list of mementos:"]) w)) as H.
  cbv [call void Caretaker_showHistory bind console_log modify gets ret] in *.
  cbn [mementos set_console caretaker] in *.
  match goal with
  | H : only_prints _ (world_of ?c) |- only_prints _ (world_of match ?c' with _ => _ end) =>
      change c' with c; destruct c; exact H
  end.
Qed.

Lemma restore_frame (memento : value) (w : World) :
  let w' := world_of (call (restore memento) w) in
  mementos w' = mementos w /\ heap w' = heap w.
Proof.
  destruct (restore_cases w memento)
    as [(s & w1 & _ & E & _ & Hm & Hh)|[e E]];
    cbv [call void bind]; rewrite E; cbn; auto.
Qed.

Lemma undo_frame (w : World) :
  heap (world_of (call undo w)) = heap w.
Proof.
  exec. destruct (length (mementos w)); cbn; [reflexivity|].
  destruct (last (mementos w)) as [[| |l|s]|]; cbn; try reflexivity.
  destruct (heap w !! l) eqn:Hl; cbn; rewrite ?Hl; reflexivity.
Qed.

(** No call changes or removes an object of the heap; a call adds at most
    one object, at a location that was free. *)
Lemma call_heap (o : op) (w : World) :
  heap (world_of (call o w)) = heap w \/
  exists cm, heap (world_of (call o w)) = <[fresh (dom (heap w)) := cm]> (heap w).
Proof.
  destruct o as [d|iso|m|iso| |].
  - left. reflexivity.
  - right. eexists. reflexivity.
  - left. apply restore_frame.
  - right. eexists. reflexivity.
  - left. apply undo_frame.
  - left. apply showHistory_frame.
Qed.

Lemma call_heap_mono (o : op) (w : World) (l : loc) (cm : ConcreteMemento) :
  heap w !! l = Some cm -> heap (world_of (call o w)) !! l = Some cm.
Proof.
  intros Hl. destruct (call_heap o w) as [->|[cm' ->]]; [exact Hl|].
  rewrite lookup_insert_ne; [exact Hl|].
  intros E. rewrite <- E, fresh_heap_None in Hl. discriminate.
Qed.

Lemma run_app (ops1 ops2 : list op) (w : World) :
  run (ops1 ++ ops2) w = run ops2 (run ops1 w).
Proof. apply fold_left_app. Qed.

Lemma run_cons (o : op) (ops : list op) (w : World) :
  run (o :: ops) w = run ops (world_of (call o w)).
Proof. reflexivity. Qed.

Lemma run_heap_mono (ops : list op) (w : World) (l : loc) (cm : ConcreteMemento) :
  heap w !! l = Some cm -> heap (run ops w) !! l = Some cm.
Proof.
  revert w. induction ops as [|o ops IH]; intros w Hl; [exact Hl|].
  rewrite run_cons. apply IH, call_heap_mono, Hl.
Qed.

(** C8. A memento object, once in the heap, keeps its stored state: after
    any sequence of doSomething, save, restore, backup, undo and showHistory
    calls, getState() on it answers what it answered before them.  In
    particular the memento that save() creates answers the state the
    Originator had at that moment, whatever the Originator's state has
    become since. *)
Theorem ConcreteMemento_immutable
    (w : World) (l : loc) (s : string) (ops : list op) :
  ConcreteMemento_getState (VObj l) w = Return s w ->
  ConcreteMemento_getState (VObj l) (run ops w) = Return s (run ops w) /\
  (forall cm, heap w !! l = Some cm -> heap (run ops w) !! l = Some cm) /\
  (forall iso, exists l' w1,
      Originator_save iso w = Return (VObj l') w1 /\
      ConcreteMemento_getState (VObj l') w1 = Return (state w) w1 /\
      ConcreteMemento_getState (VObj l') (run ops w1) = Return (state w) (run ops w1)).
Proof.
  intros Hs.
  assert (Hmono : forall w0 l0 cm, heap w0 !! l0 = Some cm ->
            ConcreteMemento_getState (VObj l0) (run ops w0) =
            Return (ConcreteMemento_state cm) (run ops w0)).
  { intros w0 l0 cm H. apply getState_live, run_heap_mono, H. }
  split; [|split].
  - revert Hs. exec. destruct (heap w !! l) as [cm|] eqn:Hl; [|discriminate].
    intros [= <-]. specialize (Hmono w l cm Hl). revert Hmono. exec. auto.
  - intros cm. apply run_heap_mono.
  - intros iso. destruct (save_spec w iso) as (w1 & E & _ & _ & Hh & _).
    eexists _, w1. split; [exact E|].
    assert (heap w1 !! fresh (dom (heap w)) =
            Some {| ConcreteMemento_state := state w;
                    ConcreteMemento_date := replace "T" " " (slice0 19 iso) |}) as Hl'.
    { rewrite Hh. apply lookup_insert_eq. }
    split; [apply (getState_live _ _ _ Hl')|apply (Hmono _ _ _ Hl')].
Qed.

Lemma ConcreteMemento_immutable_witness :
  let w := world_of (call (backup "2026-11-01T10:00:00.000Z") (boot "A")) in
  let ops := [doSomething (fun i => i); backup "2026-11-01T10:00:01.000Z";
              undo; restore VNull; undo; showHistory] in
  ConcreteMemento_getState (VObj 1) w = Return "A" w /\
  ConcreteMemento_getState (VObj 1) (run ops w) = Return "A" (run ops w).
Proof.
  intros w ops.
  assert (H : ConcreteMemento_getState (VObj 1) w = Return "A" w)
    by (vm_compute; reflexivity).
  split; [exact H|].
  exact (proj1 (ConcreteMemento_immutable w 1 "A" ops H)).
Defined.

(** C5. backup() appends one entry to the history, a reference to a new
    memento object whose stored state is the Originator's state at the call;
    the entries that were there stay in place and their objects are
    unchanged; the Originator's state is not touched. *)
Theorem Caretaker_backup_frame (w : World) (iso : string) :
  exists l w',
    call (backup iso) w = Return VUndefined w' /\
    heap w !! l = None /\
    mementos w' = (mementos w ++ [VObj l])%list /\
    length (mementos w') = S (length (mementos w)) /\
    (forall i v, mementos w !! i = Some v -> mementos w' !! i = Some v) /\
    (forall l' cm, heap w !! l' = Some cm -> heap w' !! l' = Some cm) /\
    state w' = state w /\
    ConcreteMemento_getState (VObj l) w' = Return (state w) w'.
Proof.
  destruct (backup_spec w iso) as (w' & E & Hs & Hm & Hh & _).
  exists (fresh (dom (heap w))), w'.
  split; [exact E|]. split; [apply fresh_heap_None|]. split; [exact Hm|].
  split; [rewrite Hm, length_app; cbn; lia|].
  split; [intros i v Hi; rewrite Hm; now apply lookup_app_l_Some|].
  split.
  { intros l' cm Hl'. pose proof (call_heap_mono (backup iso) w l' cm Hl') as H.
    now rewrite E in H. }
  split; [exact Hs|].
  etransitivity; [apply getState_live; rewrite Hh; apply lookup_insert_eq|].
  reflexivity.
Qed.

(** C9. After restore(m) with a memento object m, save() answers a memento
    whose getState() is m's getState(). *)
Theorem restore_then_save
    (w : World) (l : loc) (cm : ConcreteMemento) (iso : string) :
  heap w !! l = Some cm ->
  exists s w1 v w2,
    ConcreteMemento_getState (VObj l) w = Return s w /\
    Originator_restore (VObj l) w = Return tt w1 /\
    Originator_save iso w1 = Return v w2 /\
    ConcreteMemento_getState v w2 = Return s w2 /\
    ConcreteMemento_getState (VObj l) w2 = Return s w2.
Proof.
  intros Hl.
  destruct (restore_spec w l cm Hl) as (w1 & E1 & Hs1 & _ & Hh1 & _).
  destruct (save_spec w1 iso) as (w2 & E2 & _ & _ & Hh2 & _).
  exists (ConcreteMemento_state cm), w1, (VObj (fresh (dom (heap w1)))), w2.
  split; [apply (getState_live w l cm Hl)|].
  split; [exact E1|]. split; [exact E2|]. split.
  - etransitivity; [apply getState_live; rewrite Hh2; apply lookup_insert_eq|].
    cbn. now rewrite Hs1.
  - apply getState_live. rewrite Hh2, lookup_insert_ne, Hh1; [exact Hl|].
    intros E. rewrite <- Hh1, <- E, fresh_heap_None in Hl. discriminate.
Qed.

Lemma restore_then_save_witness :
  let w := run [backup "2026-11-01T10:00:00.000Z"; doSomething (fun i => i)] (boot "A") in
  heap w !! 1%positive =
    Some {| ConcreteMemento_state := "A";
            ConcreteMemento_date := "2026-11-01 10:00:00" |} /\
  exists s w1 v w2,
    ConcreteMemento_getState (VObj 1) w = Return s w /\
    Originator_restore (VObj 1) w = Return tt w1 /\
    Originator_save "2026-11-01T10:00:05.000Z" w1 = Return v w2 /\
    ConcreteMemento_getState v w2 = Return s w2 /\
    ConcreteMemento_getState (VObj 1) w2 = Return s w2.
Proof.
  intros w.
  assert (H : heap w !! 1%positive =
              Some {| ConcreteMemento_state := "A";
                      ConcreteMemento_date := "2026-11-01 10:00:00" |})
    by (vm_compute; reflexivity).
  split; [exact H|].
  exact (restore_then_save w 1 _ "2026-11-01T10:00:05.000Z" H).
Defined.

(** ** The history against its ghost log *)

Local Close Scope string_scope.

Section Pending.

Implicit Types (C R p : list loc) (l : loc).

Lemma pending_capture C R l :
  l ∉ R ->
  filter (fun x => x ∉ R) (C ++ [l]) = filter (fun x => x ∉ R) C ++ [l].
Proof.
  intros Hl. rewrite filter_app. f_equal.
  rewrite filter_cons_True by exact Hl. reflexivity.
Qed.

Lemma pending_consume C R p l :
  NoDup C ->
  filter (fun x => x ∉ R) C = p ++ [l] ->
  filter (fun x => x ∉ R ++ [l]) C = p.
Proof.
  intros Hnd Hp.
  assert (Hnd' : NoDup (p ++ [l])).
  { rewrite <- Hp. apply NoDup_filter, Hnd. }
  apply NoDup_app in Hnd' as (_ & Hpl & _).
  transitivity (filter (fun x => x ≠ l) (filter (fun x => x ∉ R) C)).
  - rewrite list_filter_filter. apply list_filter_iff.
    intros x. rewrite not_elem_of_app, list_elem_of_singleton. tauto.
  - rewrite Hp, filter_app, filter_cons_False, filter_nil, app_nil_r by tauto.
    clear Hp. induction p as [|x p IH]; [reflexivity|].
    rewrite filter_cons_True.
    + f_equal. apply IH. intros y Hy. apply Hpl. now right.
    + intros ->. apply (Hpl l); [left|]; apply list_elem_of_singleton; reflexivity.
Qed.

(** The last pending snapshot is the latest capture no Revert has taken. *)
Lemma pending_last C R l :
  last (filter (fun x => x ∉ R) C) = Some l ->
  exists before after,
    C = before ++ l :: after /\ (l ∉ R) /\ Forall (fun x => x ∈ R) after.
Proof.
  induction C as [|c C IH] using rev_ind; [discriminate|].
  rewrite filter_app. destruct (decide (c ∉ R)) as [Hc|Hc].
  - rewrite (filter_cons_True _ c []) by exact Hc. rewrite filter_nil, last_snoc.
    intros [= ->]. exists C, []. auto.
  - rewrite (filter_cons_False _ c []) by exact Hc. rewrite filter_nil, app_nil_r.
    intros H. destruct (IH H) as (before & after & -> & Hl & Hafter).
    exists before, (after ++ [c]). rewrite <- app_assoc. split; [reflexivity|].
    split; [exact Hl|]. apply Forall_app_2; [exact Hafter|].
    constructor; [|constructor]. now apply dec_stable.
Qed.

End Pending.

Lemma created_backup (iso : string) (w : World) :
  created (backup iso) w = [fresh (dom (heap w))].
Proof.
  unfold created. destruct (backup_spec w iso) as (w' & -> & _ & _ & Hh & _).
  cbn [world_of]. rewrite Hh, dom_insert_L.
  pose proof (is_fresh (dom (heap w))) as Hf.
  assert (({[fresh (dom (heap w))]} ∪ dom (heap w)) ∖ dom (heap w)
          = {[fresh (dom (heap w))]}) as ->; [|apply elements_singleton].
  apply set_eq. intros x.
  rewrite elem_of_difference, elem_of_union, elem_of_singleton.
  split; [tauto|]. intros ->. tauto.
Qed.

Lemma history_ok_init (w : World) :
  mementos w = [] ->
  history_ok {| world := w; captured := []; consumed := [] |}.
Proof.
  intros H. repeat split; cbn.
  - exact H.
  - constructor.
  - intros l Hl. inversion Hl.
  - intros l Hl. inversion Hl.
Qed.

Lemma history_ok_quiet (g : Ghost) (w' : World) :
  history_ok g ->
  mementos w' = mementos (world g) ->
  (forall l cm, heap (world g) !! l = Some cm -> heap w' !! l = Some cm) ->
  history_ok {| world := w'; captured := captured g ++ [];
                consumed := consumed g ++ [] |}.
Proof.
  intros (Hm & Hnd & Hlive & Hsub) Hm' Hh. unfold history_ok, pending. cbn.
  rewrite !app_nil_r. repeat split; auto.
  - now rewrite Hm'.
  - intros l Hl. destruct (Hlive l Hl) as [cm Hcm]. exists cm. now apply Hh.
Qed.

Lemma history_ok_step (g : Ghost) (o : op) :
  history_ok g -> history_ok (gstep g o).
Proof.
  intros Hok. pose proof Hok as (Hm & Hnd & Hlive & Hsub).
  pose proof (call_heap_mono o (world g)) as Hmono.
  destruct o as [d|iso|m|iso| |]; unfold gstep.
  - apply history_ok_quiet; auto.
  - apply history_ok_quiet; auto.
  - apply history_ok_quiet; auto. apply restore_frame.
  - rewrite created_backup. cbn [taken].
    destruct (backup_spec (world g) iso) as (w' & E & _ & Hm' & Hh & _).
    rewrite E in *. cbn [world_of] in *.
    set (l := fresh (dom (heap (world g)))) in *.
    assert (Hfresh : l ∉ captured g).
    { intros Hin. destruct (Hlive l Hin) as [cm Hcm].
      unfold l in Hcm. rewrite fresh_heap_None in Hcm. discriminate. }
    unfold history_ok, pending. cbn. rewrite app_nil_r. repeat split.
    + rewrite Hm', Hm, pending_capture, fmap_app; [reflexivity|].
      intros Hin. apply Hfresh, Hsub, Hin.
    + apply NoDup_app. repeat split; [exact Hnd| |apply NoDup_singleton].
      intros x Hx ->%list_elem_of_singleton. contradiction.
    + intros x [Hx| ->%list_elem_of_singleton]%elem_of_app.
      * destruct (Hlive x Hx) as [cm Hcm]. exists cm. now apply Hmono.
      * rewrite Hh, lookup_insert_eq. eauto.
    + intros x Hx. apply elem_of_app. left. now apply Hsub.
  - cbn [created].
    destruct (pending g) as [|x p _] eqn:Hp using rev_ind.
    + assert (Hnil : mementos (world g) = []) by now rewrite Hm.
      assert (E : call undo (world g) = Return VUndefined (world g)).
      { exec. rewrite Hnil. reflexivity. }
      unfold taken. rewrite Hnil, E. cbn [last world_of].
      destruct g; apply history_ok_quiet; auto.
    + assert (Hms : mementos (world g) = ((VObj <$> p) ++ [VObj x])%list)
        by now rewrite Hm, fmap_app.
      assert (Hx : x ∈ captured g).
      { assert (x ∈ pending g) as Hin
          by (rewrite Hp; apply elem_of_app; right; now left).
        apply list_elem_of_filter in Hin. tauto. }
      destruct (Hlive x Hx) as [cm Hcm].
      destruct (undo_spec (world g) _ x cm Hms Hcm) as (w' & E & _ & Hm' & Hh & _).
      unfold taken. rewrite Hms, last_snoc, E. cbn [world_of].
      unfold history_ok, pending. cbn. rewrite app_nil_r. repeat split.
      * rewrite Hm'. f_equal. symmetry. now apply pending_consume.
      * exact Hnd.
      * intros y Hy. rewrite Hh. now apply Hlive.
      * intros y [Hy| ->%list_elem_of_singleton]%elem_of_app; auto.
  - apply history_ok_quiet; auto. apply showHistory_frame.
Qed.

Lemma grun_snoc (ops : list op) (o : op) (w : World) :
  grun (ops ++ [o]) w = gstep (grun ops w) o.
Proof. unfold grun. now rewrite fold_left_app. Qed.

Lemma grun_world (ops : list op) (w : World) :
  world (grun ops w) = run ops w.
Proof.
  induction ops as [|o ops IH] using rev_ind; [reflexivity|].
  rewrite grun_snoc, run_app. cbn. now rewrite IH.
Qed.

Lemma grun_history_ok (ops : list op) (w : World) :
  mementos w = [] -> history_ok (grun ops w).
Proof.
  intros H. induction ops as [|o ops IH] using rev_ind.
  - now apply history_ok_init.
  - rewrite grun_snoc. now apply history_ok_step.
Qed.

(** ** showHistory *)

Lemma getName_heap (v : value) (w w1 : World) (name : string) :
  heap w1 = heap w ->
  ConcreteMemento_getName v w = Return name w ->
  ConcreteMemento_getName v w1 = Return name w1.
Proof.
  intros Hh. destruct v as [| |l|s]; try discriminate.
  exec. rewrite Hh. destruct (heap w !! l); [|discriminate].
  now intros [= <-].
Qed.

Lemma names_exist (ms : list value) (w : World) :
  forallb (live w) ms = true ->
  exists names,
    Forall2 (fun v name => ConcreteMemento_getName v w = Return name w) ms names.
Proof.
  induction ms as [|v ms IH]; cbn [forallb]; intros H.
  - exists []. constructor.
  - apply andb_true_iff in H as [Hv Hms]. destruct (IH Hms) as [names Hn].
    destruct v as [| |l|s]; try discriminate. cbn in Hv.
    destruct (heap w !! l) as [cm|] eqn:Hl; [|discriminate].
    eexists (_ :: names). constructor; [apply (getName_live w l cm Hl)|exact Hn].
Qed.

Lemma for_of_getName_spec (ms : list value) (names : list string) (w : World) :
  Forall2 (fun v name => ConcreteMemento_getName v w = Return name w) ms names ->
  exists w',
    for_of ms (fun memento =>
      name <- ConcreteMemento_getName memento ;; console_log name) w
    = Return tt w' /\
    console w' = console w ++ names /\ only_prints w w'.
Proof.
  revert names w. induction ms as [|v ms IH]; intros names w H.
  - inversion H; subst. exists w. rewrite app_nil_r.
    repeat split.
  - inversion H as [|? name ? names' Hv Hrest]; subst.
    set (w1 := set_console (console w ++ [name]) w).
    destruct (IH names' w1) as (w' & E & Hc & Hf).
    { eapply Forall2_impl; [exact Hrest|]. intros v' n' Hv'.
      now apply (getName_heap v' w w1). }
    exists w'. split; [|split].
    + cbn [for_of]. unfold bind at 1. unfold bind at 1. rewrite Hv. exact E.
    + rewrite Hc. cbn. now rewrite <- app_assoc.
    + eapply only_prints_trans; [|exact Hf]. repeat split.
Qed.

Lemma showHistory_spec (names : list string) (w : World) :
  Forall2 (fun v name => ConcreteMemento_getName v w = Return name w)
          (mementos w) names ->
  exists w',
    call showHistory w = Return VUndefined w' /\
    console w' =
      console w ++ "Caretaker: Here's the list of mementos:"%string :: names /\
    only_prints w w'.
Proof.
  intros H.
  set (w1 := set_console
               (console w ++ ["Caretaker: Here's the list of mementos:"%string]) w).
  destruct (for_of_getName_spec (mementos w) names w1) as (w' & E & Hc & Hf).
  { eapply Forall2_impl; [exact H|]. intros v n Hv.
    now apply (getName_heap v w w1). }
  exists w'. split; [|split].
  - change (call showHistory w) with
      (match for_of (mementos w1) (fun memento =>
               name <- ConcreteMemento_getName memento ;; console_log name) w1
       with
       | Return _ w2 => Return VUndefined w2
       | Throw e w2 => Throw e w2
       end).
    change (mementos w1) with (mementos w). now rewrite E.
  - rewrite Hc. cbn. now rewrite <- app_assoc.
  - eapply only_prints_trans; [|exact Hf]. repeat split.
Qed.

Lemma history_ok_live (g : Ghost) :
  history_ok g -> no_dangling (world g) = true.
Proof.
  intros (Hm & _ & Hlive & _). unfold no_dangling. rewrite Hm.
  apply forallb_forall. intros v Hv%list_elem_of_In.
  apply list_elem_of_fmap in Hv as (l & -> & Hl).
  assert (l ∈ captured g) as Hc.
  { apply list_elem_of_filter in Hl. tauto. }
  destruct (Hlive l Hc) as [cm Hcm]. cbn. now rewrite Hcm.
Qed.

(** ** Captures followed by as many Reverts *)

Lemma run_mutates (ds : list (nat -> nat)) (w : World) :
  mementos (run (map doSomething ds) w) = mementos w /\
  heap (run (map doSomething ds) w) = heap w.
Proof.
  revert w. induction ds as [|d ds IH]; intros w; [now split|].
  cbn [map]. rewrite run_cons.
  destruct (doSomething_spec w d) as (w1 & -> & _ & Hm & Hh).
  cbn [world_of]. destruct (IH w1) as [-> ->]. now split.
Qed.

Lemma run_captures (rest : list (list (nat -> nat) * string)) (w : World) :
  let w' := run (flat_map (fun '(ds, iso') =>
                   map doSomething ds ++ [backup iso']) rest) w in
  exists ls,
    mementos w' = mementos w ++ (VObj <$> ls) /\
    Forall (fun l => is_Some (heap w' !! l)) ls /\
    length ls = length rest.
Proof.
  revert w. induction rest as [|[ds iso'] rest IH]; intros w; cbn zeta.
  - exists []. cbn. now rewrite app_nil_r.
  - cbn [flat_map]. rewrite !run_app.
    destruct (run_mutates ds w) as [Hm Hh].
    set (w1 := run (map doSomething ds) w) in *.
    destruct (backup_spec w1 iso') as (w2 & E & _ & Hm2 & Hh2 & _).
    change (run [backup iso'] w1) with (world_of (call (backup iso') w1)).
    rewrite E. cbn [world_of].
    destruct (IH w2) as (ls & Hms & Hlive & Hlen).
    exists (fresh (dom (heap w1)) :: ls). split; [|split].
    + rewrite Hms, Hm2, Hm, <- app_assoc. reflexivity.
    + constructor; [|exact Hlive].
      eexists. apply run_heap_mono. rewrite Hh2. apply lookup_insert_eq.
    + cbn. now rewrite Hlen.
Qed.

Lemma run_undos (ls : list loc) (ms0 : list value) (w : World) :
  mementos w = ms0 ++ (VObj <$> ls) ->
  Forall (fun l => is_Some (heap w !! l)) ls ->
  let w' := run (replicate (length ls) undo) w in
  mementos w' = ms0 /\ heap w' = heap w /\
  state w' = match ls with
             | [] => state w
             | l :: _ => match heap w !! l with
                         | Some cm => ConcreteMemento_state cm
                         | None => state w
                         end
             end.
Proof.
  revert w. induction ls as [|l ls IH] using rev_ind; intros w Hms Hlive; cbn zeta.
  - change (VObj <$> []) with (@nil value) in Hms. rewrite app_nil_r in Hms.
    cbn. auto.
  - apply Forall_app in Hlive as [Hlive Hl]. inversion Hl as [|? ? [cm Hcm] _]; subst.
    rewrite length_app, Nat.add_1_r. cbn [replicate]. rewrite run_cons.
    rewrite fmap_app, app_assoc in Hms.
    destruct (undo_spec w _ l cm Hms Hcm) as (w1 & -> & Hs1 & Hm1 & Hh1 & _).
    cbn [world_of].
    destruct (IH w1 Hm1) as (Hm' & Hh' & Hs').
    { rewrite Hh1. exact Hlive. }
    split; [exact Hm'|]. split; [now rewrite Hh'|].
    rewrite Hs'. clear IH Hs'. destruct ls as [|l1 ls]; cbn.
    + now rewrite Hcm.
    + inversion Hlive as [|? ? [cm1 Hcm1] _]; subst.
      now rewrite Hh1, Hcm1.
Qed.

(** The trace of the law has as many Captures as Reverts, and no Revert
    before the last Capture. *)
Lemma round_trip_shape (iso : string) (rest : list (list (nat -> nat) * string)) :
  length (List.filter is_backup (capture_phase iso rest)) = S (length rest) /\
  List.filter is_undo (capture_phase iso rest) = [] /\
  round_trip iso rest =
    capture_phase iso rest ++ replicate (S (length rest)) undo.
Proof.
  split; [|split; [|reflexivity]]; unfold capture_phase; cbn; [f_equal|].
  - induction rest as [|[ds iso'] rest IH]; [reflexivity|].
    cbn [flat_map]. rewrite !List.filter_app, !length_app, IH. cbn.
    assert (List.filter is_backup (map doSomething ds) = []) as ->; [|cbn; lia].
    induction ds; [reflexivity|assumption].
  - induction rest as [|[ds iso'] rest IH]; [reflexivity|].
    cbn [flat_map]. rewrite !List.filter_app, IH. cbn. rewrite app_nil_r.
    induction ds; [reflexivity|assumption].
Qed.

(** C1. For any store, [n = S (length rest)] backup() calls, with any
    doSomething() calls between consecutive ones, followed by [n] undo()
    calls leave the Originator's state as it was before the first backup();
    the history is also back to what it was. *)
Theorem round_trip_undo
    (w : World) (iso : string) (rest : list (list (nat -> nat) * string)) :
  state (run (round_trip iso rest) w) = state w /\
  mementos (run (round_trip iso rest) w) = mementos w.
Proof.
  unfold round_trip, capture_phase. rewrite run_app, run_cons.
  destruct (backup_spec w iso) as (w1 & -> & _ & Hm1 & Hh1 & _).
  cbn [world_of].
  destruct (run_captures rest w1) as (ls & Hms & Hlive & Hlen).
  set (w2 := run _ w1) in *.
  set (l1 := fresh (dom (heap w))) in *.
  assert (Hl1 : heap w2 !! l1 =
                Some {| ConcreteMemento_state := state w;
                        ConcreteMemento_date :=
                          replace "T" " " (slice0 19 iso) |}).
  { apply run_heap_mono. rewrite Hh1. apply lookup_insert_eq. }
  destruct (run_undos (l1 :: ls) (mementos w) w2) as (Hm & _ & Hs).
  - rewrite Hms, Hm1, <- app_assoc. reflexivity.
  - constructor; [eauto|exact Hlive].
  - cbn [length] in Hm, Hs. rewrite Hlen in Hm, Hs. rewrite Hl1 in Hs.
    split; assumption.
Qed.

Example round_trip_scenario :
  let w := boot "A" in
  let ops := round_trip "2026-11-01T10:00:00.000Z"
               [([fun i => i], "2026-11-01T10:00:01.000Z")] in
  ops = [backup "2026-11-01T10:00:00.000Z"; doSomething (fun i => i);
         backup "2026-11-01T10:00:01.000Z"; undo; undo] /\
  state (run (firstn 3 ops) w) = "abcdefghijklmnopqrstuvwxyzABCD"%string /\
  state (run (firstn 4 ops) w) = "abcdefghijklmnopqrstuvwxyzABCD"%string /\
  mementos (run (firstn 4 ops) w) = [VObj 1] /\
  state (run ops w) = "A"%string /\
  mementos (run ops w) = [].
Proof. vm_compute. repeat split. Qed.

(** C2. In every store reached from a Caretaker with an empty history, the
    history lists, in capture order, the snapshots captured and not yet
    taken by an undo(); undo() on a non-empty history takes the latest
    capture that no earlier undo() took (every later capture was already
    taken), removes that entry and no other, and sets the Originator's state
    to that snapshot's stored state. *)
Theorem Caretaker_lifo (w0 : World) (ops : list op) :
  mementos w0 = [] ->
  let g := grun ops w0 in
  let w := run ops w0 in
  world g = w /\
  mementos w = VObj <$> pending g /\
  NoDup (captured g) /\
  (mementos w <> [] ->
   exists l before after cm w',
     captured g = before ++ l :: after /\
     (l ∉ consumed g) /\
     Forall (fun x => x ∈ consumed g) after /\
     heap w !! l = Some cm /\
     call undo w = Return VUndefined w' /\
     consumed (gstep g undo) = consumed g ++ [l] /\
     mementos w = mementos w' ++ [VObj l] /\
     pending (gstep g undo) = removelast (pending g) /\
     mementos w' = VObj <$> pending (gstep g undo) /\
     state w' = ConcreteMemento_state cm).
Proof.
  intros H0 g w.
  pose proof (grun_history_ok ops w0 H0) as Hok. fold g in Hok.
  pose proof (history_ok_step g undo Hok) as (Hm2 & _).
  pose proof (grun_world ops w0) as Hw. fold g w in Hw.
  destruct Hok as (Hm & Hnd & Hlive & Hsub). rewrite Hw in Hm, Hlive.
  split; [exact Hw|]. split; [exact Hm|]. split; [exact Hnd|].
  intros Hne.
  destruct (pending g) as [|l p _] eqn:Hp using rev_ind.
  { now rewrite Hm in Hne. }
  assert (Hlast : last (pending g) = Some l) by (rewrite Hp; apply last_snoc).
  destruct (pending_last _ _ _ Hlast) as (before & after & Hc & Hl & Hafter).
  assert (Hin : l ∈ captured g).
  { rewrite Hc. apply elem_of_app. right. now left. }
  destruct (Hlive l Hin) as [cm Hcm].
  assert (Hms : mementos w = (VObj <$> p) ++ [VObj l])
    by now rewrite Hm, fmap_app.
  destruct (undo_spec w _ l cm Hms Hcm) as (w' & E & Hs & Hm' & _).
  assert (Htaken : consumed (gstep g undo) = consumed g ++ [l]).
  { cbn. rewrite Hw, Hms, last_snoc. reflexivity. }
  assert (Hp' : pending (gstep g undo) = p).
  { unfold pending. rewrite Htaken. cbn. rewrite app_nil_r.
    now apply pending_consume. }
  exists l, before, after, cm, w'.
  repeat (split; [assumption|]).
  split; [now rewrite Hms, Hm'|].
  split; [now rewrite Hp', removelast_last|].
  split; [now rewrite Hp'|exact Hs].
Qed.

Lemma Caretaker_lifo_witness :
  let w0 := boot "A" in
  let ops := [backup "2026-11-01T10:00:00.000Z"; doSomething (fun i => i);
              backup "2026-11-01T10:00:01.000Z"; undo;
              backup "2026-11-01T10:00:02.000Z"] in
  mementos w0 = [] /\
  (pending (grun ops w0) = [1%positive; 3%positive] /\
   captured (grun ops w0) = [1%positive; 2%positive; 3%positive] /\
   consumed (grun ops w0) = [2%positive]) /\
  mementos (run ops w0) = VObj <$> pending (grun ops w0) /\
  (mementos (run ops w0) <> [] ->
   exists l before after cm w',
     captured (grun ops w0) = before ++ l :: after /\
     (l ∉ consumed (grun ops w0)) /\
     Forall (fun x => x ∈ consumed (grun ops w0)) after /\
     heap (run ops w0) !! l = Some cm /\
     call undo (run ops w0) = Return VUndefined w' /\
     consumed (gstep (grun ops w0) undo) = consumed (grun ops w0) ++ [l] /\
     mementos (run ops w0) = mementos w' ++ [VObj l] /\
     pending (gstep (grun ops w0) undo) = removelast (pending (grun ops w0)) /\
     mementos w' = VObj <$> pending (gstep (grun ops w0) undo) /\
     state w' = ConcreteMemento_state cm).
Proof.
  intros w0 ops.
  assert (H : mementos w0 = []) by reflexivity.
  split; [exact H|].
  split; [vm_compute; repeat split|].
  split; [exact (proj1 (proj2 (Caretaker_lifo w0 ops H)))|].
  exact (proj2 (proj2 (proj2 (Caretaker_lifo w0 ops H)))).
Defined.

Lemma quiet_mementos (o : op) (w : World) :
  is_backup o = false -> is_undo o = false ->
  mementos (world_of (call o w)) = mementos w.
Proof.
  destruct o as [d|iso|m|iso| |]; try discriminate; intros _ _.
  - reflexivity.
  - reflexivity.
  - apply restore_frame.
  - apply showHistory_frame.
Qed.

Lemma run_keeps_history (ops : list op) (w : World) :
  forallb keeps_history ops = true ->
  mementos (run ops w) = mementos w.
Proof.
  revert w. induction ops as [|o ops IH]; intros w H; [reflexivity|].
  cbn [forallb] in H. apply andb_true_iff in H as [Ho Hops].
  rewrite run_cons, (IH _ Hops). unfold keeps_history in Ho.
  apply negb_true_iff, orb_false_iff in Ho as [Hb Hu].
  now apply quiet_mementos.
Qed.

Lemma getName_mono (v : value) (w w1 : World) (name : string) :
  (forall l cm, heap w !! l = Some cm -> heap w1 !! l = Some cm) ->
  ConcreteMemento_getName v w = Return name w ->
  ConcreteMemento_getName v w1 = Return name w1.
Proof.
  intros Hh. destruct v as [| |l|s]; try discriminate.
  exec. destruct (heap w !! l) as [cm|] eqn:Hl; [|discriminate].
  rewrite (Hh l cm Hl). now intros [= <-].
Qed.

(** C6 as stated fails: showHistory() is a [void] method and logs a header
    before the labels.  With one snapshot in the history the call answers
    [undefined], and what it logs is the header followed by the label, not
    the labels alone. *)
Lemma Caretaker_showHistory_prints_header :
  let w := world_of (call (backup "2026-11-01T10:00:00.000Z") (boot "A")) in
  mementos w = [VObj 1] /\
  ConcreteMemento_getName (VObj 1) w =
    Return "2026-11-01 10:00:00 / (A...)"%string w /\
  exists w',
    call showHistory w = Return VUndefined w' /\
    drop (length (console w)) (console w') =
      ["Caretaker: Here's the list of mementos:";
       "2026-11-01 10:00:00 / (A...)"]%string /\
    drop (length (console w)) (console w') <>
      ["2026-11-01 10:00:00 / (A...)"]%string.
Proof.
  intros w. split; [reflexivity|]. split; [reflexivity|].
  eexists. split; [reflexivity|]. split; [reflexivity|]. discriminate.
Qed.

(** C6, amended. In every store reached from a Caretaker with an empty
    history, showHistory() makes one console.log call with its header and
    then one with the getName() of each entry of the history, oldest
    capture first, and nothing else; it answers [undefined] and leaves the
    history, the heap and the Originator's state as they were.  After any
    further calls that are neither backup() nor undo() (doSomething, save,
    restore with any argument, showHistory), another showHistory() logs the
    same header and labels again and the history is still the same. *)
Theorem Caretaker_showHistory_labels (w0 : World) (ops between : list op) :
  mementos w0 = [] ->
  forallb keeps_history between = true ->
  let g := grun ops w0 in
  let w := run ops w0 in
  exists names w' w'',
    mementos w = VObj <$> pending g /\
    Forall2 (fun l name => ConcreteMemento_getName (VObj l) w = Return name w)
            (pending g) names /\
    call showHistory w = Return VUndefined w' /\
    console w' =
      console w ++ "Caretaker: Here's the list of mementos:"%string :: names /\
    state w' = state w /\ mementos w' = mementos w /\ heap w' = heap w /\
    call showHistory (run between w') = Return VUndefined w'' /\
    console w'' =
      console (run between w') ++
      "Caretaker: Here's the list of mementos:"%string :: names /\
    state w'' = state (run between w') /\
    mementos w'' = mementos w /\
    heap w'' = heap (run between w').
Proof.
  intros H0 Hbetween g w.
  pose proof (grun_history_ok ops w0 H0) as Hok. fold g in Hok.
  pose proof (history_ok_live g Hok) as Hlive.
  destruct Hok as (Hm & _).
  pose proof (grun_world ops w0) as Hw. fold g w in Hw.
  rewrite Hw in Hm, Hlive.
  destruct (names_exist (mementos w) w Hlive) as [names Hn].
  destruct (showHistory_spec names w Hn) as (w' & E & Hc & Hs & Hms & Hh).
  pose proof (run_keeps_history between w' Hbetween) as Hkeep.
  destruct (showHistory_spec names (run between w'))
    as (w'' & E' & Hc' & Hs' & Hms' & Hh').
  { rewrite Hkeep, Hms. eapply Forall2_impl; [exact Hn|]. intros v n Hv.
    apply (getName_mono v w (run between w') n); [|exact Hv].
    intros l cm Hl. apply run_heap_mono. now rewrite Hh. }
  exists names, w', w''.
  split; [exact Hm|]. split.
  { rewrite Hm in Hn. now apply Forall2_fmap_l in Hn. }
  repeat (split; [assumption|]).
  split; [congruence|exact Hh'].
Qed.

Lemma Caretaker_showHistory_labels_witness :
  let w0 := boot "Super-duper-super-puper-super." in
  let ops := [backup "2026-11-01T10:00:00.000Z"; doSomething (fun i => i);
              backup "2026-11-01T10:00:01.000Z"; doSomething (fun i => 51 - i);
              backup "2026-11-01T10:00:02.000Z"; doSomething (fun _ => 0)] in
  let between := [doSomething (fun _ => 7); restore VNull; restore (VObj 1);
                  save "2026-11-01T10:00:03.000Z"; showHistory] in
  mementos w0 = [] /\
  forallb keeps_history between = true /\
  exists names w' w'',
    mementos (run ops w0) = VObj <$> pending (grun ops w0) /\
    Forall2 (fun l name =>
               ConcreteMemento_getName (VObj l) (run ops w0) =
               Return name (run ops w0))
            (pending (grun ops w0)) names /\
    call showHistory (run ops w0) = Return VUndefined w' /\
    console w' =
      console (run ops w0) ++
      "Caretaker: Here's the list of mementos:"%string :: names /\
    state w' = state (run ops w0) /\ mementos w' = mementos (run ops w0) /\
    heap w' = heap (run ops w0) /\
    call showHistory (run between w') = Return VUndefined w'' /\
    console w'' =
      console (run between w') ++
      "Caretaker: Here's the list of mementos:"%string :: names /\
    state w'' = state (run between w') /\
    mementos w'' = mementos (run ops w0) /\
    heap w'' = heap (run between w').
Proof.
  intros w0 ops between.
  assert (H : mementos w0 = []) by reflexivity.
  assert (Hb : forallb keeps_history between = true) by reflexivity.
  split; [exact H|]. split; [exact Hb|].
  exact (Caretaker_showHistory_labels w0 ops between H Hb).
Defined.

(** Two listings with a doSomething(), a restore() and a save() between
    them log the same header and labels. *)
Example showHistory_twice_scenario :
  let w := run [backup "2026-11-01T10:00:00.000Z"; doSomething (fun i => i);
                backup "2026-11-01T10:00:01.000Z"] (boot "A") in
  let logged ops := drop (length (console (run ops w)))
                         (console (run (ops ++ [showHistory]) w)) in
  logged [] =
    ["Caretaker: Here's the list of mementos:";
     "2026-11-01 10:00:00 / (A...)";
     "2026-11-01 10:00:01 / (abcdefghi...)"]%string /\
  logged [showHistory; doSomething (fun _ => 7); restore (VObj 1);
          save "2026-11-01T10:00:03.000Z"] = logged [].
Proof. vm_compute. split; reflexivity. Qed.

(** Three captures list three labels in the order captured; after two
    Reverts the list is the first label alone. *)
Example showHistory_scenario :
  let w0 := boot "Super-duper-super-puper-super." in
  let ops := [backup "2026-11-01T10:00:00.000Z"; doSomething (fun i => i);
              backup "2026-11-01T10:00:01.000Z"; doSomething (fun i => 51 - i);
              backup "2026-11-01T10:00:02.000Z"] in
  let printed ops := drop (length (console (run ops w0)))
                          (console (run (ops ++ [showHistory]) w0)) in
  printed ops =
    ["Caretaker: Here's the list of mementos:";
     "2026-11-01 10:00:00 / (Super-dup...)";
     "2026-11-01 10:00:01 / (abcdefghi...)";
     "2026-11-01 10:00:02 / (ZYXWVUTSR...)"]%string /\
  printed (ops ++ [undo; undo]) =
    ["Caretaker: Here's the list of mementos:";
     "2026-11-01 10:00:00 / (Super-dup...)"]%string.
Proof. vm_compute. split; reflexivity. Qed.

(** The transcript of the script's calls, for three given clock answers and
    given draws. *)
Example client_transcript :
  drop 1 (console (run (client "2026-11-01T10:00:00.000Z"
                               "2026-11-01T10:00:01.000Z"
                               "2026-11-01T10:00:02.000Z"
                               (fun i => i) (fun i => 51 - i) (fun _ => 0))
                       (boot "Super-duper-super-puper-super."))) =
  [ newline +:+ "Caretaker: Saving Originator's state...";
    "Originator: I'm doing something important.";
    "Originator: and my state has changed to: abcdefghijklmnopqrstuvwxyzABCD";
    newline +:+ "Caretaker: Saving Originator's state...";
    "Originator: I'm doing something important.";
    "Originator: and my state has changed to: ZYXWVUTSRQPONMLKJIHGFEDCBAzyxw";
    newline +:+ "Caretaker: Saving Originator's state...";
    "Originator: I'm doing something important.";
    "Originator: and my state has changed to: aaaaaaaaaaaaaaaaaaaaaaaaaaaaaa";
    "Caretaker: Here's the list of mementos:";
    "2026-11-01 10:00:00 / (Super-dup...)";
    "2026-11-01 10:00:01 / (abcdefghi...)";
    "2026-11-01 10:00:02 / (ZYXWVUTSR...)";
    "Caretaker: Restoring state to: 2026-11-01 10:00:02 / (ZYXWVUTSR...)";
    "Originator: My state has changed to: ZYXWVUTSRQPONMLKJIHGFEDCBAzyxw";
    "Caretaker: Restoring state to: 2026-11-01 10:00:01 / (abcdefghi...)";
    "Originator: My state has changed to: abcdefghijklmnopqrstuvwxyzABCD"
  ]%string.
Proof. vm_compute. reflexivity. Qed.

(** C7 as stated fails: undo() is a [void] method.  With one snapshot in
    the history the call answers [undefined], which is neither the removed
    memento nor its label. *)
Lemma Caretaker_undo_returns_undefined :
  let w := world_of (call (backup "2026-11-01T10:00:00.000Z") (boot "A")) in
  mementos w = [VObj 1] /\
  ConcreteMemento_getName (VObj 1) w =
    Return "2026-11-01 10:00:00 / (A...)"%string w /\
  (exists w', call undo w = Return VUndefined w') /\
  ~ (exists w',
        call undo w = Return (VObj 1) w' \/
        call undo w = Return (VStr "2026-11-01 10:00:00 / (A...)") w').
Proof.
  intros w. split; [reflexivity|]. split; [reflexivity|].
  destruct (undo_spec w [] 1%positive
              {| ConcreteMemento_state := "A";
                 ConcreteMemento_date := "2026-11-01 10:00:00" |})
    as (w' & E & _); [reflexivity|reflexivity|].
  split; [exists w'; exact E|].
  intros [w'' [H|H]]; rewrite E in H; discriminate.
Qed.

(** C7, amended. undo() on a history whose last entry is a memento object
    removes that entry, prints ["Caretaker: Restoring state to: "] followed
    by the entry's getName(), calls the Originator's restore() with the
    entry, and answers [undefined]; the Originator's state is then the
    entry's stored state and the heap is unchanged. *)
Theorem Caretaker_undo_nonempty
    (w : World) (ms : list value) (l : loc) (cm : ConcreteMemento) :
  mementos w = ms ++ [VObj l] ->
  heap w !! l = Some cm ->
  exists name w1 w',
    ConcreteMemento_getName (VObj l) w = Return name w /\
    w1 = set_console (console w ++ ["Caretaker: Restoring state to: " +:+ name])
           (set_mementos ms w) /\
    Originator_restore (VObj l) w1 = Return tt w' /\
    call undo w = Return VUndefined w' /\
    mementos w' = ms /\
    state w' = ConcreteMemento_state cm /\
    heap w' = heap w /\
    console w' =
      console w ++ ["Caretaker: Restoring state to: " +:+ name;
                    "Originator: My state has changed to: " +:+
                    ConcreteMemento_state cm].
Proof.
  intros Hms Hl.
  destruct (undo_spec w ms l cm Hms Hl) as (w' & E & Hs & Hm & Hh & Hc).
  eexists _, _, w'. split; [apply (getName_live w l cm Hl)|].
  split; [reflexivity|].
  repeat split; try assumption.
  revert E. exec. rewrite Hms, length_app, Nat.add_1_r. cbn [Nat.eqb]. cbv beta.
  rewrite Hms, last_snoc, removelast_last. cbn. rewrite Hl. cbn. rewrite Hl.
  now intros [= <-].
Qed.

Lemma Caretaker_undo_nonempty_witness :
  let w := world_of (call (backup "2026-11-01T10:00:00.000Z") (boot "A")) in
  let cm := {| ConcreteMemento_state := "A";
               ConcreteMemento_date := "2026-11-01 10:00:00" |} in
  mementos w = [] ++ [VObj 1] /\
  heap w !! 1%positive = Some cm /\
  exists name w1 w',
    ConcreteMemento_getName (VObj 1) w = Return name w /\
    w1 = set_console (console w ++ ["Caretaker: Restoring state to: " +:+ name])
           (set_mementos [] w) /\
    Originator_restore (VObj 1) w1 = Return tt w' /\
    call undo w = Return VUndefined w' /\
    mementos w' = [] /\
    state w' = "A"%string /\
    heap w' = heap w /\
    console w' =
      console w ++ ["Caretaker: Restoring state to: " +:+ name;
                    "Originator: My state has changed to: " +:+ "A"].
Proof.
  intros w cm.
  assert (Hm : mementos w = [] ++ [VObj 1]) by reflexivity.
  assert (Hl : heap w !! 1%positive = Some cm) by (vm_compute; reflexivity).
  split; [exact Hm|]. split; [exact Hl|].
  exact (Caretaker_undo_nonempty w [] 1%positive cm Hm Hl).
Defined.

(** * Further properties of the source *)

(** ** generateRandomString and doSomething *)

Lemma get_in_range (s : string) (i : nat) :
  i < String.length s ->
  exists a, String.get i s = Some a /\ In a (list_ascii_of_string s).
Proof.
  revert i. induction s as [|c s IH]; intros i Hi; cbn in Hi; [lia|].
  destruct i as [|i]; cbn.
  - exists c. auto.
  - destruct (IH i) as (a & Ha & Hin); [lia|]. exists a. auto.
Qed.

Lemma join_draws (draws : nat -> nat) (len start : nat) :
  (forall i, start <= i < start + len -> draws i < String.length charSet) ->
  let s := join (map (fun i => charAt charSet (draws i)) (seq start len)) in
  String.length s = len /\
  Forall (fun a => In a (list_ascii_of_string charSet)) (list_ascii_of_string s) /\
  forall i, i < len -> String.get i s = String.get (draws (start + i)) charSet.
Proof.
  revert start. induction len as [|len IH]; intros start H; cbn zeta.
  - cbn. split; [reflexivity|]. split; [constructor|]. intros i Hi. lia.
  - cbn [seq map].
    change (join (?x :: ?xs)) with (x +:+ join xs).
    destruct (get_in_range charSet (draws start)) as (a & Ha & Hin);
      [apply H; lia|].
    assert (E : charAt charSet (draws start) = String a EmptyString)
      by (unfold charAt; now rewrite Ha).
    rewrite E. clear E.
    destruct (IH (S start)) as (Hlen & Hall & Hget); [intros i Hi; apply H; lia|].
    change (String a EmptyString +:+ ?x) with (String a x).
    cbn [String.length list_ascii_of_string].
    split; [now rewrite Hlen|]. split; [constructor; assumption|].
    intros [|i] Hi; cbn [String.get].
    + now rewrite Nat.add_0_r.
    + rewrite Hget by lia. f_equal. f_equal. lia.
Qed.

(** X1. When every draw is an index into charSet, generateRandomString(len)
    is a string of exactly [len] characters, each one a character of
    charSet: the [i]-th is charSet at the [i]-th draw. *)
Theorem generateRandomString_letters (len : nat) (draws : nat -> nat) :
  (forall i, i < len -> draws i < String.length charSet) ->
  let s := Originator_generateRandomString len draws in
  String.length s = len /\
  Forall (fun a => In a (list_ascii_of_string charSet)) (list_ascii_of_string s) /\
  forall i, i < len -> String.get i s = String.get (draws i) charSet.
Proof.
  intros H. apply (join_draws draws len 0). intros i Hi. apply H. lia.
Qed.

Lemma generateRandomString_letters_witness :
  (forall i, i < 30 -> (fun i => 51 - i) i < String.length charSet) /\
  String.length (Originator_generateRandomString 30 (fun i => 51 - i)) = 30 /\
  String.get 0 (Originator_generateRandomString 30 (fun i => 51 - i)) = Some "Z"%char.
Proof.
  assert (H : forall i, i < 30 -> (fun i => 51 - i) i < String.length charSet).
  { intros i Hi. change (String.length charSet) with 52. lia. }
  split; [exact H|].
  split; [exact (proj1 (generateRandomString_letters 30 _ H))|].
  exact (proj2 (proj2 (generateRandomString_letters 30 _ H)) 0 ltac:(lia)).
Defined.

(** X2. With draws that index charSet, doSomething() replaces the state by
    a string of 30 characters of charSet that does not depend on the old
    state, prints two lines, the second showing the new state, and leaves
    the history and the heap alone. *)
Theorem doSomething_effect (w : World) (draws : nat -> nat) :
  (forall i, i < 30 -> draws i < String.length charSet) ->
  exists w',
    call (doSomething draws) w = Return VUndefined w' /\
    state w' = Originator_generateRandomString 30 draws /\
    String.length (state w') = 30 /\
    Forall (fun a => In a (list_ascii_of_string charSet))
           (list_ascii_of_string (state w')) /\
    mementos w' = mementos w /\ heap w' = heap w /\
    console w' =
      console w ++ ["Originator: I'm doing something important."%string;
                    "Originator: and my state has changed to: " +:+ state w'].
Proof.
  intros H. destruct (join_draws draws 30 0) as (Hlen & Hall & _).
  { intros i Hi. apply H. lia. }
  eexists. split; [reflexivity|]. cbn [state originator Originator_state
    set_console set_state mementos caretaker heap console].
  split; [reflexivity|]. split; [exact Hlen|]. split; [exact Hall|].
  split; [reflexivity|]. split; [reflexivity|].
  now rewrite <- app_assoc.
Qed.

Lemma doSomething_effect_witness :
  (forall i, i < 30 -> (fun i => i) i < String.length charSet) /\
  exists w',
    call (doSomething (fun i => i)) (boot "A") = Return VUndefined w' /\
    state w' = "abcdefghijklmnopqrstuvwxyzABCD"%string /\
    mementos w' = [].
Proof.
  assert (H : forall i, i < 30 -> (fun i => i) i < String.length charSet).
  { intros i Hi. change (String.length charSet) with 52. lia. }
  split; [exact H|].
  destruct (doSomething_effect (boot "A") (fun i => i) H)
    as (w' & E & Hs & _ & _ & Hm & _).
  exists w'. split; [exact E|]. split; [exact Hs|exact Hm].
Defined.

(** ** The date of a memento *)

Lemma append_nil_l (s : string) : EmptyString +:+ s = s.
Proof. reflexivity. Qed.

Lemma append_cons (a : ascii) (s t : string) :
  String a s +:+ t = String a (s +:+ t).
Proof. reflexivity. Qed.

Lemma replace_first (c d : ascii) (pre post : string) :
  (forall a, In a (list_ascii_of_string pre) -> a <> c) ->
  replace c d (pre +:+ String c post) = pre +:+ String d post.
Proof.
  induction pre as [|a pre IH]; intros H.
  - rewrite !append_nil_l. cbn [replace]. now rewrite Ascii.eqb_refl.
  - rewrite !append_cons. cbn [replace].
    destruct (Ascii.eqb_spec a c) as [->|_].
    + exfalso. apply (H c); [now left|reflexivity].
    + f_equal. apply IH. intros b Hb. apply H. now right.
Qed.

Lemma substring_0_app (s rest : string) :
  String.substring 0 (String.length s) (s +:+ rest) = s.
Proof.
  induction s as [|a s IH].
  - rewrite append_nil_l. now destruct rest.
  - rewrite append_cons. cbn [String.length String.substring]. now rewrite IH.
Qed.

Lemma append_assoc (s1 s2 s3 : string) :
  (s1 +:+ s2) +:+ s3 = s1 +:+ (s2 +:+ s3).
Proof.
  induction s1 as [|a s1 IH]; [reflexivity|].
  rewrite !append_cons. now rewrite IH.
Qed.

Lemma length_append (s1 s2 : string) :
  String.length (s1 +:+ s2) = String.length s1 + String.length s2.
Proof.
  induction s1 as [|a s1 IH]; [reflexivity|].
  rewrite append_cons. cbn [String.length]. now rewrite IH.
Qed.

(** X3. When the clock's answer is [day], then ["T"], then [time], then
    anything, with [day], ["T"] and [time] making up its first 19
    characters and no ["T"] in [day], the new memento's date is [day], a
    space, [time]: the fraction and zone are cut off and only that ["T"] is
    replaced.  The constructor changes neither the state nor the history. *)
Theorem ConcreteMemento_new_date (w : World) (st day time rest : string) :
  String.length day + 1 + String.length time = 19 ->
  (forall a, In a (list_ascii_of_string day) -> a <> "T"%char) ->
  exists l w',
    ConcreteMemento_new st (day +:+ "T" +:+ time +:+ rest) w = Return (VObj l) w' /\
    heap w !! l = None /\
    ConcreteMemento_getDate (VObj l) w' = Return (day +:+ " " +:+ time) w' /\
    ConcreteMemento_getState (VObj l) w' = Return st w' /\
    state w' = state w /\ mementos w' = mementos w.
Proof.
  intros Hlen Hday.
  assert (Hdate : replace "T" " " (slice0 19 (day +:+ "T" +:+ time +:+ rest))
                  = day +:+ " " +:+ time).
  { unfold slice0.
    replace (day +:+ "T" +:+ time +:+ rest)
      with ((day +:+ String "T" time) +:+ rest).
    2:{ rewrite append_assoc. reflexivity. }
    replace 19 with (String.length (day +:+ String "T" time)).
    2:{ rewrite length_append. cbn [String.length]. lia. }
    rewrite substring_0_app. now apply replace_first. }
  exists (fresh (dom (heap w))). eexists. split; [reflexivity|].
  split; [apply fresh_heap_None|].
  split.
  { etransitivity; [apply getDate_live; cbn; apply lookup_insert_eq|].
    cbn [ConcreteMemento_date]. now rewrite Hdate. }
  split.
  { etransitivity; [apply getState_live; cbn; apply lookup_insert_eq|].
    reflexivity. }
  split; reflexivity.
Qed.

Lemma ConcreteMemento_new_date_witness :
  String.length "2026-11-01" + 1 + String.length "10:00:02" = 19 /\
  (forall a, In a (list_ascii_of_string "2026-11-01") -> a <> "T"%char) /\
  exists l w',
    ConcreteMemento_new "A" ("2026-11-01" +:+ "T" +:+ "10:00:02" +:+ ".125Z")
      empty_world = Return (VObj l) w' /\
    ConcreteMemento_getDate (VObj l) w' =
      Return ("2026-11-01" +:+ " " +:+ "10:00:02") w'.
Proof.
  assert (H1 : String.length "2026-11-01" + 1 + String.length "10:00:02" = 19)
    by reflexivity.
  assert (H2 : forall a, In a (list_ascii_of_string "2026-11-01") -> a <> "T"%char).
  { intros a Ha. cbn in Ha.
    repeat (destruct Ha as [<-|Ha]; [discriminate|]). destruct Ha. }
  split; [exact H1|]. split; [exact H2|].
  destruct (ConcreteMemento_new_date empty_world "A" "2026-11-01" "10:00:02"
              ".125Z" H1 H2) as (l & w' & E & _ & Hd & _).
  exists l, w'. split; [exact E|exact Hd].
Defined.

(** Beyond the year 9999 the clock's answer starts with a sign and six
    digits, so the first 19 characters end before the seconds. *)
Example date_of_far_year :
  replace "T" " " (slice0 19 "+275760-09-13T00:00:00.000Z") = "+275760-09-13 00:00"%string.
Proof. reflexivity. Qed.

(** ** save() and restore() without the Caretaker *)

(** X6. A memento that save() answers brings the Originator back: whatever
    calls are made after save(), restore() of that memento completes
    normally, sets the state to the state at save(), and touches neither the
    history nor the heap. *)
Theorem save_then_restore (w : World) (iso : string) (ops : list op) :
  exists l w1 w3,
    Originator_save iso w = Return (VObj l) w1 /\
    Originator_restore (VObj l) (run ops w1) = Return tt w3 /\
    state w3 = state w /\
    mementos w3 = mementos (run ops w1) /\
    heap w3 = heap (run ops w1).
Proof.
  destruct (save_spec w iso) as (w1 & E & _ & _ & Hh & _).
  assert (Hl : heap (run ops w1) !! fresh (dom (heap w)) =
               Some {| ConcreteMemento_state := state w;
                       ConcreteMemento_date := replace "T" " " (slice0 19 iso) |}).
  { apply run_heap_mono. rewrite Hh. apply lookup_insert_eq. }
  destruct (restore_spec _ _ _ Hl) as (w3 & E3 & Hs & Hm & Hh3 & _).
  exists (fresh (dom (heap w))), w1, w3. auto.
Qed.

(** ** The Caretaker over whole runs *)

Lemma undo_empty_id (w : World) :
  mementos w = [] -> call undo w = Return VUndefined w.
Proof. intros H. exec. now rewrite H. Qed.

Lemma history_last (g : Ghost) :
  history_ok g ->
  mementos (world g) = [] \/
  exists ms l cm,
    mementos (world g) = ms ++ [VObj l] /\ heap (world g) !! l = Some cm.
Proof.
  intros (Hm & _ & Hlive & _).
  destruct (pending g) as [|l p _] eqn:Hp using rev_ind.
  - left. now rewrite Hm.
  - right. assert (Hin : l ∈ captured g).
    { assert (l ∈ pending g) as Hin
        by (rewrite Hp; apply elem_of_app; right; now left).
      apply list_elem_of_filter in Hin. tauto. }
    destruct (Hlive l Hin) as [cm Hcm].
    exists (VObj <$> p), l, cm. split; [|exact Hcm].
    now rewrite Hm, fmap_app.
Qed.

(** X4. In every store reached from a Caretaker with an empty history, no
    call but a client's restore() can throw: doSomething, save, backup, undo
    and showHistory complete normally, and so does restore() of any entry
    of the history. *)
Theorem Caretaker_never_throws (w0 : World) (ops : list op) (o : op) :
  mementos w0 = [] ->
  is_restore o = false ->
  (exists v w', call o (run ops w0) = Return v w') /\
  (forall m, m ∈ mementos (run ops w0) ->
     exists w', call (restore m) (run ops w0) = Return VUndefined w').
Proof.
  intros H0 Ho.
  pose proof (grun_history_ok ops w0 H0) as Hok.
  pose proof (history_ok_live _ Hok) as Hlive.
  pose proof (history_last _ Hok) as Hlast.
  rewrite grun_world in Hlive, Hlast.
  set (w := run ops w0) in *. split.
  - destruct o as [d|iso|m|iso| |]; try discriminate.
    + eexists _, _. reflexivity.
    + eexists _, _. reflexivity.
    + eexists _, _. reflexivity.
    + destruct Hlast as [Hnil|(ms & l & cm & Hms & Hcm)].
      * eexists _, _. now apply undo_empty_id.
      * destruct (undo_spec w ms l cm Hms Hcm) as (w' & E & _). eauto.
    + destruct (names_exist (mementos w) w Hlive) as [names Hn].
      destruct (showHistory_spec names w Hn) as (w' & E & _). eauto.
  - intros m Hm. unfold no_dangling in Hlive.
    rewrite forallb_forall in Hlive.
    specialize (Hlive m (proj1 (list_elem_of_In _ _) Hm)).
    destruct m as [| |l|s]; try discriminate. cbn in Hlive.
    destruct (heap w !! l) as [cm|] eqn:Hl; [|discriminate].
    destruct (restore_spec w l cm Hl) as (w' & E & _).
    exists w'. cbv [call void bind]. now rewrite E.
Qed.

Lemma Caretaker_never_throws_witness :
  let w0 := boot "A" in
  let ops := [backup "2026-11-01T10:00:00.000Z"; undo; undo;
              restore VNull; doSomething (fun i => i)] in
  mementos w0 = [] /\ is_restore undo = false /\
  exists v w', call undo (run ops w0) = Return v w'.
Proof.
  intros w0 ops.
  assert (H0 : mementos w0 = []) by reflexivity.
  assert (Ho : is_restore undo = false) by reflexivity.
  split; [exact H0|]. split; [exact Ho|].
  exact (proj1 (Caretaker_never_throws w0 ops undo H0 Ho)).
Defined.

(** X5. In every store reached from a Caretaker with an empty history, the
    history holds as many entries as backup() calls were made, less the
    undo() calls that found an entry: never more than the backup() calls,
    never fewer than the backup() calls less all undo() calls. *)
Theorem history_length (w0 : World) (ops : list op) :
  mementos w0 = [] ->
  length (mementos (run ops w0)) + length (consumed (grun ops w0))
    = length (captured (grun ops w0)) /\
  length (captured (grun ops w0)) = length (List.filter is_backup ops) /\
  length (consumed (grun ops w0)) <= length (List.filter is_undo ops) /\
  length (mementos (run ops w0)) <= length (List.filter is_backup ops) /\
  length (List.filter is_backup ops)
    <= length (mementos (run ops w0)) + length (List.filter is_undo ops).
Proof.
  intros H0.
  enough (length (mementos (run ops w0)) + length (consumed (grun ops w0))
            = length (captured (grun ops w0)) /\
          length (captured (grun ops w0)) = length (List.filter is_backup ops) /\
          length (consumed (grun ops w0)) <= length (List.filter is_undo ops))
    as (H1 & H2 & H3) by (repeat split; lia).
  induction ops as [|o ops IH] using rev_ind.
  - cbn. rewrite H0. cbn. lia.
  - destruct IH as (H1 & H2 & H3).
    pose proof (history_last _ (grun_history_ok ops w0 H0)) as Hlast.
    rewrite grun_snoc, run_app, !List.filter_app, !length_app.
    change (run [o] (run ops w0)) with (world_of (call o (run ops w0))).
    unfold gstep. cbn [captured consumed]. rewrite !length_app.
    rewrite grun_world in *. set (w := run ops w0) in *.
    destruct o as [d|iso|m|iso| |].
    + rewrite quiet_mementos by reflexivity. cbn. lia.
    + rewrite quiet_mementos by reflexivity. cbn. lia.
    + rewrite quiet_mementos by reflexivity. cbn. lia.
    + rewrite created_backup.
      destruct (backup_spec w iso) as (w' & -> & _ & Hm' & _).
      cbn [world_of]. rewrite Hm', length_app. cbn. lia.
    + destruct Hlast as [Hnil|(ms & l & cm & Hms & Hcm)].
      * rewrite (undo_empty_id w Hnil). cbn. rewrite Hnil in *. cbn in *. lia.
      * destruct (undo_spec w ms l cm Hms Hcm) as (w' & -> & _ & Hm' & _).
        cbn [world_of taken created]. rewrite Hm', Hms, last_snoc.
        rewrite Hms, length_app in H1. cbn in *. lia.
    + rewrite quiet_mementos by reflexivity. cbn. lia.
Qed.

Lemma history_length_witness :
  let w0 := boot "A" in
  let ops := [undo; backup "2026-11-01T10:00:00.000Z"; doSomething (fun i => i);
              backup "2026-11-01T10:00:01.000Z"; undo] in
  mementos w0 = [] /\
  length (mementos (run ops w0)) = 1 /\
  length (mementos (run ops w0)) <= length (List.filter is_backup ops) /\
  length (List.filter is_backup ops)
    <= length (mementos (run ops w0)) + length (List.filter is_undo ops).
Proof.
  intros w0 ops.
  assert (H0 : mementos w0 = []) by reflexivity.
  split; [exact H0|]. split; [vm_compute; reflexivity|].
  exact (proj2 (proj2 (proj2 (history_length w0 ops H0)))).
Defined.

(** ** Nested Captures and Reverts *)

Lemma live_call (o : op) (w : World) (top : list loc) :
  Forall (fun l => is_Some (heap w !! l)) top ->
  Forall (fun l => is_Some (heap (world_of (call o w)) !! l)) top.
Proof.
  intros H. eapply Forall_impl; [exact H|].
  intros l [cm Hcm]. exists cm. now apply call_heap_mono.
Qed.

Lemma nested_run (ops : list op) :
  forall (d d' : nat) (w : World) (base : list value) (top : list loc),
    mementos w = base ++ (VObj <$> top) ->
    length top = d ->
    Forall (fun l => is_Some (heap w !! l)) top ->
    depth_after d ops = Some d' ->
    exists top',
      mementos (run ops w) = base ++ (VObj <$> top') /\
      length top' = d' /\
      Forall (fun l => is_Some (heap (run ops w) !! l)) top'.
Proof.
  induction ops as [|o ops IH]; intros d d' w base top Hms Hlen Hlive Hd.
  - cbn in Hd. injection Hd as <-. exists top. auto.
  - rewrite run_cons.
    assert (Hquiet : is_backup o = false -> is_undo o = false ->
                     depth_after d ops = Some d' ->
                     exists top',
                       mementos (run ops (world_of (call o w))) =
                         base ++ (VObj <$> top') /\
                       length top' = d' /\
                       Forall (fun l => is_Some
                                 (heap (run ops (world_of (call o w))) !! l)) top').
    { intros Hb Hu Hd'. apply (IH d d' _ base top); auto.
      - now rewrite quiet_mementos.
      - now apply live_call. }
    destruct o as [ds|iso|m|iso| |]; cbn [depth_after] in Hd; auto.
    + pose proof (live_call (backup iso) w top Hlive) as Hlive'.
      destruct (backup_spec w iso) as (w1 & E & _ & Hm1 & Hh1 & _).
      rewrite E in *. cbn [world_of] in *.
      apply (IH (S d) d' w1 base (top ++ [fresh (dom (heap w))])); auto.
      * rewrite Hm1, Hms, fmap_app, <- app_assoc. reflexivity.
      * rewrite length_app. cbn. lia.
      * apply Forall_app_2; [exact Hlive'|].
        constructor; [|constructor]. rewrite Hh1, lookup_insert_eq. eauto.
    + destruct d as [|d0]; [discriminate|].
      destruct top as [|l top0 _] using rev_ind; [discriminate|].
      rewrite length_app in Hlen. cbn in Hlen.
      apply Forall_app in Hlive as [Hlive0 Hl].
      inversion Hl as [|? ? [cm Hcm] _]; subst.
      rewrite fmap_app, app_assoc in Hms.
      destruct (undo_spec w _ l cm Hms Hcm) as (w1 & E & _ & Hm1 & Hh1 & _).
      rewrite E. cbn [world_of].
      apply (IH d0 d' w1 base top0); auto; [lia|now rewrite Hh1].
Qed.

(** X7. A block of calls in which every undo() answers an earlier backup()
    of the block, and every backup() of the block is answered, leaves the
    history as it found it, whatever else the block does (doSomething, save,
    restore, showHistory).  Put between a backup() and an undo(), it also
    leaves the Originator in the state it had before that backup(). *)
Theorem nested_block_restores (w : World) (iso : string) (ops : list op) :
  depth_after 0 ops = Some 0 ->
  mementos (run ops w) = mementos w /\
  state (run (backup iso :: ops ++ [undo]) w) = state w /\
  mementos (run (backup iso :: ops ++ [undo]) w) = mementos w.
Proof.
  intros Hd. split.
  - destruct (nested_run ops 0 0 w (mementos w) []) as (top' & Hm & Hlen & _);
      auto; [now rewrite app_nil_r|].
    destruct top'; [|discriminate]. now rewrite Hm, app_nil_r.
  - rewrite run_cons.
    destruct (backup_spec w iso) as (w1 & -> & _ & Hm1 & Hh1 & _).
    cbn [world_of]. rewrite run_app.
    destruct (nested_run ops 0 0 w1 (mementos w1) []) as (top' & Hm & Hlen & _);
      auto; [now rewrite app_nil_r|].
    destruct top'; [|discriminate]. rewrite app_nil_r, Hm1 in Hm.
    set (w2 := run ops w1) in *.
    assert (Hl : heap w2 !! fresh (dom (heap w)) =
                 Some {| ConcreteMemento_state := state w;
                         ConcreteMemento_date :=
                           replace "T" " " (slice0 19 iso) |}).
    { apply run_heap_mono. rewrite Hh1. apply lookup_insert_eq. }
    destruct (undo_spec w2 _ _ _ Hm Hl) as (w3 & E & Hs & Hm3 & _).
    change (run [undo] w2) with (world_of (call undo w2)). rewrite E.
    cbn [world_of]. auto.
Qed.

Lemma nested_block_restores_witness :
  let ops := [doSomething (fun i => i); backup "2026-11-01T10:00:01.000Z";
              restore VNull; save "2026-11-01T10:00:02.000Z";
              doSomething (fun _ => 3); undo; showHistory;
              doSomething (fun _ => 5)] in
  depth_after 0 ops = Some 0 /\
  state (run (backup "2026-11-01T10:00:00.000Z" :: ops ++ [undo]) (boot "A"))
    = "A"%string /\
  mementos (run (backup "2026-11-01T10:00:00.000Z" :: ops ++ [undo]) (boot "A"))
    = [].
Proof.
  intros ops.
  assert (H : depth_after 0 ops = Some 0) by reflexivity.
  split; [exact H|].
  exact (proj2 (nested_block_restores (boot "A") "2026-11-01T10:00:00.000Z" ops H)).
Defined.

(** ** More Reverts than entries *)

Lemma live_heap_eq (w w1 : World) (v : value) :
  heap w1 = heap w -> live w1 v = live w v.
Proof. intros H. destruct v; cbn; now rewrite ?H. Qed.

Lemma run_undos_take (k : nat) :
  forall w : World,
    no_dangling w = true ->
    mementos (run (replicate k undo) w)
      = take (length (mementos w) - k) (mementos w) /\
    heap (run (replicate k undo) w) = heap w /\
    state (run (replicate k undo) w)
      = match mementos w !! (length (mementos w) - k) with
        | Some (VObj l) =>
            match heap w !! l with
            | Some cm => ConcreteMemento_state cm
            | None => state w
            end
        | _ => state w
        end.
Proof.
  induction k as [|k IH]; intros w Hw.
  - cbn [replicate]. rewrite Nat.sub_0_r, firstn_all.
    rewrite (lookup_ge_None_2 (mementos w)) by lia. auto.
  - cbn [replicate]. rewrite run_cons. unfold no_dangling in Hw.
    destruct (mementos w) as [|v ms _] eqn:Hms using rev_ind.
    + rewrite (undo_empty_id w Hms). cbn [world_of].
      destruct (IH w) as (Hm & Hh & Hs); [unfold no_dangling; now rewrite Hms|].
      rewrite Hms in Hm, Hs. cbn in *. rewrite take_nil in Hm. auto.
    + rewrite forallb_app in Hw. apply andb_true_iff in Hw as [Hlive Hv].
      cbn in Hv. rewrite andb_true_r in Hv.
      destruct v as [| |l|s]; try discriminate. cbn in Hv.
      destruct (heap w !! l) as [cm|] eqn:Hcm; [|discriminate].
      destruct (undo_spec w ms l cm Hms Hcm) as (w1 & -> & Hs1 & Hm1 & Hh1 & _).
      cbn [world_of].
      assert (Hw1 : no_dangling w1 = true).
      { unfold no_dangling. rewrite Hm1. apply forallb_forall.
        intros v Hv'. rewrite (live_heap_eq w w1 v Hh1).
        now apply (proj1 (forallb_forall _ _) Hlive). }
      destruct (IH w1 Hw1) as (Hm & Hh & Hs). rewrite Hm1, Hh1 in *.
      rewrite length_app. cbn [length].
      replace (length ms + 1 - S k) with (length ms - k) by lia.
      split; [|split; [exact Hh|]].
      * rewrite Hm, take_app_le by lia. reflexivity.
      * rewrite Hs. destruct (decide (length ms - k < length ms)) as [Hlt|Hge].
        -- rewrite lookup_app_l by exact Hlt.
           destruct (lookup_lt_is_Some_2 ms _ Hlt) as [v Hv']. rewrite Hv'.
           rewrite forallb_forall in Hlive.
           assert (Hin : In v ms).
           { apply list_elem_of_In, list_elem_of_lookup. eauto. }
           specialize (Hlive v Hin). destruct v as [| |l'|s]; try discriminate.
           cbn in Hlive. destruct (heap w !! l'); [reflexivity|discriminate].
        -- assert (length ms - k = length ms) as -> by lia.
           rewrite (lookup_ge_None_2 ms) by lia.
           rewrite list_lookup_middle by reflexivity.
           now rewrite Hcm.
Qed.

(** X8. In a store whose history holds live mementos, [k] undo() calls in a
    row remove the last [k] entries, or all of them when there are fewer;
    the calls beyond the entries do nothing.  When [k] is positive and the
    history was not empty, the state is then the stored state of the oldest
    entry removed; the heap is unchanged. *)
Theorem undo_many (w : World) (k : nat) :
  no_dangling w = true ->
  mementos (run (replicate k undo) w)
    = take (length (mementos w) - k) (mementos w) /\
  heap (run (replicate k undo) w) = heap w /\
  (forall l cm,
      0 < k ->
      mementos w !! (length (mementos w) - k) = Some (VObj l) ->
      heap w !! l = Some cm ->
      state (run (replicate k undo) w) = ConcreteMemento_state cm) /\
  (mementos w = [] -> state (run (replicate k undo) w) = state w).
Proof.
  intros Hw. destruct (run_undos_take k w Hw) as (Hm & Hh & Hs).
  split; [exact Hm|]. split; [exact Hh|]. split.
  - intros l cm _ Hl Hcm. now rewrite Hs, Hl, Hcm.
  - intros Hnil. rewrite Hs, Hnil. reflexivity.
Qed.

Lemma undo_many_witness :
  let w := run [backup "2026-11-01T10:00:00.000Z"; doSomething (fun i => i);
                backup "2026-11-01T10:00:01.000Z"] (boot "A") in
  no_dangling w = true /\
  mementos (run (replicate 5 undo) w) = [] /\
  state (run (replicate 5 undo) w) = "A"%string.
Proof.
  intros w.
  assert (H : no_dangling w = true) by (vm_compute; reflexivity).
  split; [exact H|].
  split; [exact (proj1 (undo_many w 5 H))|].
  refine (proj1 (proj2 (proj2 (undo_many w 5 H))) 1%positive
            {| ConcreteMemento_state := "A";
               ConcreteMemento_date := "2026-11-01 10:00:00" |} _ _ _).
  - lia.
  - reflexivity.
  - vm_compute. reflexivity.
Defined.

(** ** Labels against entries *)

(** X11. backup() does not look at what the history already holds: two
    backup() calls with the same clock answer and no change of state
    between them leave two distinct memento objects at the end of the
    history, with the same stored state and the same label. *)
Theorem backup_twice_same_label (w : World) (iso : string) :
  exists l1 l2 name,
    mementos (run [backup iso; backup iso] w)
      = mementos w ++ [VObj l1; VObj l2] /\
    l1 <> l2 /\
    ConcreteMemento_getName (VObj l1) (run [backup iso; backup iso] w)
      = Return name (run [backup iso; backup iso] w) /\
    ConcreteMemento_getName (VObj l2) (run [backup iso; backup iso] w)
      = Return name (run [backup iso; backup iso] w) /\
    ConcreteMemento_getState (VObj l1) (run [backup iso; backup iso] w)
      = Return (state w) (run [backup iso; backup iso] w) /\
    ConcreteMemento_getState (VObj l2) (run [backup iso; backup iso] w)
      = Return (state w) (run [backup iso; backup iso] w).
Proof.
  rewrite !run_cons.
  destruct (backup_spec w iso) as (w1 & -> & Hs1 & Hm1 & Hh1 & _).
  cbn [world_of].
  destruct (backup_spec w1 iso) as (w2 & -> & _ & Hm2 & Hh2 & _).
  cbn [world_of run fold_left].
  set (l1 := fresh (dom (heap w))) in *.
  set (l2 := fresh (dom (heap w1))) in *.
  set (cm := {| ConcreteMemento_state := state w;
                ConcreteMemento_date := replace "T" " " (slice0 19 iso) |}) in *.
  assert (Hne : l1 <> l2).
  { intros E. pose proof (fresh_heap_None w1) as Hf. fold l2 in Hf.
    rewrite <- E, Hh1, lookup_insert_eq in Hf. discriminate. }
  assert (H1 : heap w2 !! l1 = Some cm).
  { rewrite Hh2, lookup_insert_ne by auto. rewrite Hh1. apply lookup_insert_eq. }
  assert (H2 : heap w2 !! l2 = Some cm).
  { rewrite Hh2, Hs1. apply lookup_insert_eq. }
  exists l1, l2. eexists.
  split; [rewrite Hm2, Hm1, <- app_assoc; reflexivity|].
  split; [exact Hne|].
  split; [apply (getName_live _ _ _ H1)|].
  split; [apply (getName_live _ _ _ H2)|].
  split; [apply (getState_live _ _ _ H1)|apply (getState_live _ _ _ H2)].
Qed.



(** ** The script *)

Lemma insert_fresh_keeps (w w' : World) (cm x : ConcreteMemento) (l : loc) :
  heap w' = <[fresh (dom (heap w)) := cm]> (heap w) ->
  heap w !! l = Some x -> heap w' !! l = Some x.
Proof.
  intros -> Hl. rewrite lookup_insert_ne; [exact Hl|].
  intros E. rewrite <- E, fresh_heap_None in Hl. discriminate.
Qed.

(** X10. Whatever the initial state, the clock's answers and the draws, the
    script of the source file ends with the Originator in the state its
    first doSomething() produced, and with one entry left in the history:
    the memento of the first backup(), which holds the initial state and is
    labelled by the first clock answer.  The constructor and the calls have
    made 18 console.log calls in all (each one entry of [console]; a logged
    string may span several lines of output). *)
Theorem client_outcome
    (s iso1 iso2 iso3 : string) (d1 d2 d3 : nat -> nat) :
  let w := run (client iso1 iso2 iso3 d1 d2 d3) (boot s) in
  state w = Originator_generateRandomString 30 d1 /\
  exists l,
    mementos w = [VObj l] /\
    ConcreteMemento_getState (VObj l) w = Return s w /\
    ConcreteMemento_getName (VObj l) w
      = Return (replace "T" " " (slice0 19 iso1) +:+ " / (" +:+
                substr 0 9 s +:+ "...)") w /\
    length (console w) = 18.
Proof.
  cbn zeta. unfold client.
  set (w0 := boot s).
  assert (H0 : mementos w0 = []) by reflexivity.
  assert (Hs0 : state w0 = s) by reflexivity.
  assert (Hc0 : length (console w0) = 1) by reflexivity.
  clearbody w0.
  rewrite !run_cons.
  destruct (backup_spec w0 iso1) as (w1 & -> & Hs1 & Hm1 & Hh1 & Hc1).
  cbn [world_of].
  destruct (doSomething_spec w1 d1) as (w2 & E2 & Hs2 & Hm2 & Hh2).
  assert (Hc2 : length (console w2) = length (console w1) + 2).
  { revert E2. cbv [call void bind Originator_doSomething console_log
      modify gets ret]. intros [= <-]. cbn. rewrite !length_app. cbn. lia. }
  rewrite E2. cbn [world_of].
  destruct (backup_spec w2 iso2) as (w3 & -> & Hs3 & Hm3 & Hh3 & Hc3).
  cbn [world_of].
  destruct (doSomething_spec w3 d2) as (w4 & E4 & Hs4 & Hm4 & Hh4).
  assert (Hc4 : length (console w4) = length (console w3) + 2).
  { revert E4. cbv [call void bind Originator_doSomething console_log
      modify gets ret]. intros [= <-]. cbn. rewrite !length_app. cbn. lia. }
  rewrite E4. cbn [world_of].
  destruct (backup_spec w4 iso3) as (w5 & -> & Hs5 & Hm5 & Hh5 & Hc5).
  cbn [world_of].
  destruct (doSomething_spec w5 d3) as (w6 & E6 & Hs6 & Hm6 & Hh6).
  assert (Hc6 : length (console w6) = length (console w5) + 2).
  { revert E6. cbv [call void bind Originator_doSomething console_log
      modify gets ret]. intros [= <-]. cbn. rewrite !length_app. cbn. lia. }
  rewrite E6. cbn [world_of].
  set (l1 := fresh (dom (heap w0))) in *.
  set (l2 := fresh (dom (heap w2))) in *.
  set (l3 := fresh (dom (heap w4))) in *.
  set (cm1 := {| ConcreteMemento_state := state w0;
                 ConcreteMemento_date := replace "T" " " (slice0 19 iso1) |}) in *.
  set (cm2 := {| ConcreteMemento_state := state w2;
                 ConcreteMemento_date := replace "T" " " (slice0 19 iso2) |}) in *.
  set (cm3 := {| ConcreteMemento_state := state w4;
                 ConcreteMemento_date := replace "T" " " (slice0 19 iso3) |}) in *.
  assert (Hms6 : mementos w6 = [VObj l1; VObj l2; VObj l3]).
  { rewrite Hm6, Hm5, Hm4, Hm3, Hm2, Hm1, H0. reflexivity. }
  assert (Hl1 : heap w1 !! l1 = Some cm1) by (rewrite Hh1; apply lookup_insert_eq).
  assert (Hl2 : heap w3 !! l2 = Some cm2) by (rewrite Hh3; apply lookup_insert_eq).
  assert (Hl3 : heap w5 !! l3 = Some cm3) by (rewrite Hh5; apply lookup_insert_eq).
  assert (Hl1' : heap w6 !! l1 = Some cm1).
  { rewrite Hh6. apply (insert_fresh_keeps w4 w5 cm3 cm1 l1 Hh5).
    rewrite Hh4. apply (insert_fresh_keeps w2 w3 cm2 cm1 l1 Hh3).
    rewrite Hh2. exact Hl1. }
  assert (Hl2' : heap w6 !! l2 = Some cm2).
  { rewrite Hh6. apply (insert_fresh_keeps w4 w5 cm3 cm2 l2 Hh5).
    rewrite Hh4. exact Hl2. }
  assert (Hl3' : heap w6 !! l3 = Some cm3) by (rewrite Hh6; exact Hl3).
  destruct (showHistory_spec
              [ConcreteMemento_date cm1 +:+ " / (" +:+
                 substr 0 9 (ConcreteMemento_state cm1) +:+ "...)";
               ConcreteMemento_date cm2 +:+ " / (" +:+
                 substr 0 9 (ConcreteMemento_state cm2) +:+ "...)";
               ConcreteMemento_date cm3 +:+ " / (" +:+
                 substr 0 9 (ConcreteMemento_state cm3) +:+ "...)"] w6)
    as (w7 & -> & Hc7 & Hs7 & Hm7 & Hh7).
  { rewrite Hms6. repeat constructor; now apply getName_live. }
  cbn [world_of].
  rewrite <- Hh7 in Hl1', Hl2', Hl3'. rewrite <- Hm7 in Hms6.
  destruct (undo_spec w7 [VObj l1; VObj l2] l3 cm3 Hms6 Hl3')
    as (w8 & -> & Hs8 & Hm8 & Hh8 & Hc8).
  cbn [world_of]. rewrite <- Hh8 in Hl1', Hl2'.
  destruct (undo_spec w8 [VObj l1] l2 cm2 Hm8 Hl2')
    as (w9 & -> & Hs9 & Hm9 & Hh9 & Hc9).
  cbn [world_of run fold_left]. rewrite <- Hh9 in Hl1'.
  split; [rewrite Hs9; cbn; exact Hs2|].
  exists l1. split; [exact Hm9|].
  split; [rewrite (getState_live _ _ _ Hl1'); cbn; now rewrite Hs0|].
  split; [rewrite (getName_live _ _ _ Hl1'); cbn; now rewrite Hs0|].
  rewrite Hc9, Hc8, Hc7, !length_app. cbn [length].
  rewrite Hc6, Hc5, length_app, Hc4, Hc3, length_app, Hc2, Hc1, length_app, Hc0.
  reflexivity.
Qed.
